(** * Watchdog: a tracking wrapper around malloc/calloc/realloc/free

    Shallow embedding of [src/Watchdog.c].  The C globals, the raw heap of
    the system allocator, the [info_t] objects owned by the tracker, the
    [atexit] table and the output stream are the fields of one [state];
    every C function is a computation in a state-and-fault monad. *)

From Stdlib Require Import ZArith Lia.
From stdpp Require Import base option list gmap strings.

Local Open Scope Z_scope.

(** ** The chain container *)

(** Chain/Chain.c is not part of the sources (only a header of another
    revision is); the container the tracker stores its records and traces in
    is taken from the description the spec gives of it. *)
Module Chain.

Abbreviation Chain_t := list (only parsing).

(** Modelled from the spec: Chain/Chain.c, [chain_new], is missing; "[new]
    (empty chain)". *)
Definition chain_new {A : Type} : Chain_t A := [].

(** Modelled from the spec: Chain/Chain.c, [chain_push], is missing; "[push]
    (append at back)". *)
Definition chain_push {A : Type} (self : Chain_t A) (data : A) : Chain_t A :=
  self ++ [data].

(** Modelled from the spec: Chain/Chain.c, [chain_pop], is missing; "[pop]
    (remove and return front, reports emptiness as a distinct outcome)". *)
Definition chain_pop {A : Type} (self : Chain_t A) : option (A * Chain_t A) :=
  match self with
  | [] => None
  | x :: rest => Some (x, rest)
  end.

(** Modelled from the spec: Chain/Chain.c, [chain_back], is missing;
    "[front]/[back] (peek without removing, fails/returns sentinel on
    empty)". *)
Definition chain_back {A : Type} (self : Chain_t A) : option A := last self.

(** Modelled from the spec: Chain/Chain.c, the iterator, is missing; a cursor
    created at the front and walked forward yields the elements "v1..vn in
    order".  This is the list of what it yields. *)
Definition chain_iterate {A : Type} (self : Chain_t A) : list A := self.

End Chain.
Import Chain.

(** ** Data of Watchdog.c *)

Inductive call_t :=
  | CALL_MALLOC | CALL_CALLOC | CALL_REALLOC | CALL_FREE | CALL_EXIT | CALL_ABORT.

Module Trace.
Record trace_t := mk_trace {
  file : string;
  line : Z;
  size : Z;
  func : call_t
}.
End Trace.
Export Trace.

(** A pointer returned to the user or by the system allocator: an address,
    with [NULL] the address 0. *)
Abbreviation pointer := Z (only parsing).
Definition NULL : pointer := 0.

(** The address of an [info_t] object of the tracker. *)
Abbreviation info_ptr := nat (only parsing).

Record info_t := mk_info {
  trace_list : list trace_t;
  address : pointer;
  allocated : bool
}.

Record chunk_t := mk_chunk { info : info_ptr }.

(** A live block of the system allocator: the byte count it was requested
    with, and its [chunk_t] header ([None] while never written). *)
Record block := mk_block {
  blk_bytes : Z;
  blk_header : option chunk_t
}.

Inductive FILE := stdout | stderr | fopened (path : string).

Inductive hook := hook_terminate | hook_report | hook_collect.

(** One constructor per [fprintf] format of the source, carrying the
    formatted arguments; [closed] records [fclose]. *)
Inductive message :=
  | msg_initialized
  | msg_terminated
  | msg_report
  | msg_report_address (a : pointer)
  | msg_report_trace (f : call_t) (fl : string) (ln : Z) (sz : Z)
  | msg_report_counts (allocations frees : Z)
  | msg_report_bytes (allocd freed collected : Z)
  | msg_gc
  | msg_gc_address (a : pointer)
  | msg_gc_still_allocated (f : call_t) (fl : string) (ln : Z) (sz : Z)
  | msg_gc_collected (collected : Z)
  | msg_info (c : call_t) (fl : string) (ln : Z)
  | msg_warn (c : call_t) (fl : string) (ln : Z)
  | msg_error (c : call_t) (fl : string) (ln : Z)
  | msg_allocated (sz : Z) (data : pointer)
  | msg_alloc_failed (sz : Z)
  | msg_reallocated (sz : Z) (p data : pointer)
  | msg_realloc_failed (sz : Z)
  | msg_freed (sz : Z) (data : pointer)
  | msg_exit_code (status : Z)
  | closed.

(** The file-scope variables of Watchdog.c, followed by the part of the C
    runtime they act on. *)
Record state := mk_state {
  __stream : option FILE;
  __initialized : bool;
  __info_list : option (list info_ptr);
  __allocations_counter : Z;
  __frees_counter : Z;
  __bytes_allocated : Z;
  __bytes_freed : Z;
  __bytes_collected : Z;
  heap : gmap Z block;
  infos : gmap nat info_t;
  next_info : info_ptr;
  atexit_table : list hook;
  output : list (FILE * message)
}.

(** The state of a process before its first call into the tracker. *)
Definition initial_state : state :=
  {| __stream := None; __initialized := false; __info_list := None;
     __allocations_counter := 0; __frees_counter := 0;
     __bytes_allocated := 0; __bytes_freed := 0; __bytes_collected := 0;
     heap := ∅; infos := ∅; next_info := 0%nat;
     atexit_table := []; output := [] |}.

Definition set_stream (v : option FILE) (s : state) : state :=
  mk_state v (__initialized s) (__info_list s) (__allocations_counter s)
    (__frees_counter s) (__bytes_allocated s) (__bytes_freed s)
    (__bytes_collected s) (heap s) (infos s) (next_info s) (atexit_table s)
    (output s).

Definition set_initialized (v : bool) (s : state) : state :=
  mk_state (__stream s) v (__info_list s) (__allocations_counter s)
    (__frees_counter s) (__bytes_allocated s) (__bytes_freed s)
    (__bytes_collected s) (heap s) (infos s) (next_info s) (atexit_table s)
    (output s).

Definition set_info_list (v : option (list info_ptr)) (s : state) : state :=
  mk_state (__stream s) (__initialized s) v (__allocations_counter s)
    (__frees_counter s) (__bytes_allocated s) (__bytes_freed s)
    (__bytes_collected s) (heap s) (infos s) (next_info s) (atexit_table s)
    (output s).

Definition set_allocations_counter (v : Z) (s : state) : state :=
  mk_state (__stream s) (__initialized s) (__info_list s) v
    (__frees_counter s) (__bytes_allocated s) (__bytes_freed s)
    (__bytes_collected s) (heap s) (infos s) (next_info s) (atexit_table s)
    (output s).

Definition set_frees_counter (v : Z) (s : state) : state :=
  mk_state (__stream s) (__initialized s) (__info_list s)
    (__allocations_counter s) v (__bytes_allocated s) (__bytes_freed s)
    (__bytes_collected s) (heap s) (infos s) (next_info s) (atexit_table s)
    (output s).

Definition set_bytes_allocated (v : Z) (s : state) : state :=
  mk_state (__stream s) (__initialized s) (__info_list s)
    (__allocations_counter s) (__frees_counter s) v (__bytes_freed s)
    (__bytes_collected s) (heap s) (infos s) (next_info s) (atexit_table s)
    (output s).

Definition set_bytes_freed (v : Z) (s : state) : state :=
  mk_state (__stream s) (__initialized s) (__info_list s)
    (__allocations_counter s) (__frees_counter s) (__bytes_allocated s) v
    (__bytes_collected s) (heap s) (infos s) (next_info s) (atexit_table s)
    (output s).

Definition set_bytes_collected (v : Z) (s : state) : state :=
  mk_state (__stream s) (__initialized s) (__info_list s)
    (__allocations_counter s) (__frees_counter s) (__bytes_allocated s)
    (__bytes_freed s) v (heap s) (infos s) (next_info s) (atexit_table s)
    (output s).

Definition set_heap (v : gmap Z block) (s : state) : state :=
  mk_state (__stream s) (__initialized s) (__info_list s)
    (__allocations_counter s) (__frees_counter s) (__bytes_allocated s)
    (__bytes_freed s) (__bytes_collected s) v (infos s) (next_info s)
    (atexit_table s) (output s).

Definition set_infos (v : gmap nat info_t) (s : state) : state :=
  mk_state (__stream s) (__initialized s) (__info_list s)
    (__allocations_counter s) (__frees_counter s) (__bytes_allocated s)
    (__bytes_freed s) (__bytes_collected s) (heap s) v (next_info s)
    (atexit_table s) (output s).

Definition set_next_info (v : info_ptr) (s : state) : state :=
  mk_state (__stream s) (__initialized s) (__info_list s)
    (__allocations_counter s) (__frees_counter s) (__bytes_allocated s)
    (__bytes_freed s) (__bytes_collected s) (heap s) (infos s) v
    (atexit_table s) (output s).

Definition set_atexit_table (v : list hook) (s : state) : state :=
  mk_state (__stream s) (__initialized s) (__info_list s)
    (__allocations_counter s) (__frees_counter s) (__bytes_allocated s)
    (__bytes_freed s) (__bytes_collected s) (heap s) (infos s) (next_info s)
    v (output s).

Definition set_output (v : list (FILE * message)) (s : state) : state :=
  mk_state (__stream s) (__initialized s) (__info_list s)
    (__allocations_counter s) (__frees_counter s) (__bytes_allocated s)
    (__bytes_freed s) (__bytes_collected s) (heap s) (infos s) (next_info s)
    (atexit_table s) v.

(** ** The monad: state threading, with the ways a C call can go wrong *)

Inductive fault :=
  | AssertionFailed   (* an [assert] of the source does not hold *)
  | InvalidAccess     (* a load, store or free through a pointer to no live object *)
  | Aborted.          (* [abort()] was called *)

Inductive res (A : Type) :=
  | Ok (a : A)
  | Fault (f : fault).
Arguments Ok {A} a.
Arguments Fault {A} f.

Definition M (A : Type) : Type := state -> res (A * state).

Definition ret {A : Type} (a : A) : M A := fun s => Ok (a, s).

Definition bind {A B : Type} (m : M A) (k : A -> M B) : M B :=
  fun s => match m s with
           | Ok (a, s') => k a s'
           | Fault f => Fault f
           end.

Definition fail {A : Type} (f : fault) : M A := fun _ => Fault f.

Definition gets {A : Type} (f : state -> A) : M A := fun s => Ok (f s, s).

Definition modify (f : state -> state) : M unit := fun s => Ok (tt, f s).

Definition assert (b : bool) : M unit :=
  if b then ret tt else fail AssertionFailed.

Notation "'let*' x ':=' m 'in' k" := (bind m (fun x => k))
  (at level 10, x name, m at level 100, k at level 200).
Notation "m1 ';;' m2" := (bind m1 (fun _ => m2))
  (at level 100, m2 at level 200, right associativity).

(** [for (...; iterator yields x;) body] *)
Fixpoint for_each {A : Type} (body : A -> M unit) (l : list A) : M unit :=
  match l with
  | [] => ret tt
  | x :: rest => body x ;; for_each body rest
  end.

(** ** Watchdog.c *)

(** What the source takes from its environment: the width of [size_t], the
    width of the hidden header, the configuration macros of Watchdog.h (which
    is not part of the sources), and whether the configured output file can
    be opened. *)
Record config := mk_config {
  size_t_bits : Z;
  chunk_header_bytes : Z;
  output_path : string;
  report_flag : Z;
  gc_flag : Z;
  verbose_flag : Z;
  fopen_succeeds : bool
}.

Section Watchdog.

Variable cfg : config.

(** Width in bits of [size_t]; every [size_t] sum and product of the source
    is reduced modulo [2 ^ w]. *)
Local Abbreviation w := (size_t_bits cfg).
Local Abbreviation sizeof_chunk_t := (chunk_header_bytes cfg).
Local Abbreviation WATCHDOG_OUTPUT := (output_path cfg).
Local Abbreviation WATCHDOG_REPORT := (report_flag cfg).
Local Abbreviation WATCHDOG_GC := (gc_flag cfg).
Local Abbreviation WATCHDOG_VERBOSE := (verbose_flag cfg).

Definition wrap (x : Z) : Z := x mod 2 ^ w.

(** *** The C runtime *)

Definition fprintf (stream : option FILE) (m : message) : M unit :=
  match stream with
  | None => fail InvalidAccess
  | Some f => modify (fun s => set_output (output s ++ [(f, m)]) s)
  end.

Definition fclose (stream : option FILE) : M unit := fprintf stream closed.

Definition atexit (h : hook) : M unit :=
  modify (fun s => set_atexit_table (atexit_table s ++ [h]) s).

(** [malloc(n)], where [raw] is the address the system allocator answers
    with ([NULL] when it has no memory). *)
Definition malloc (n : Z) (raw : pointer) : M pointer :=
  if raw =? NULL then ret NULL
  else modify (fun s => set_heap (<[raw := mk_block n None]> (heap s)) s) ;;
       ret raw.

(** [calloc(nmemb, n)]; the source calls it with [nmemb = 1] only. *)
Definition calloc (nmemb n : Z) (raw : pointer) : M pointer :=
  malloc (wrap (nmemb * n)) raw.

(** [realloc(chunk, n)]: on failure the old block is left as it is; on
    success it moves, with its contents, to the address [raw]. *)
Definition realloc (chunk : pointer) (n : Z) (raw : pointer) : M pointer :=
  let* h := gets heap in
  match h !! chunk with
  | None => fail InvalidAccess
  | Some b =>
      if raw =? NULL then ret NULL
      else modify (set_heap (<[raw := mk_block n (blk_header b)]> (delete chunk h))) ;;
           ret raw
  end.

Definition free (chunk : pointer) : M unit :=
  let* h := gets heap in
  match h !! chunk with
  | None => fail InvalidAccess
  | Some _ => modify (set_heap (delete chunk h))
  end.

(** [chunk->info] as an rvalue. *)
Definition load_chunk (chunk : pointer) : M chunk_t :=
  let* h := gets heap in
  match h !! chunk with
  | Some (mk_block _ (Some c)) => ret c
  | _ => fail InvalidAccess
  end.

(** [chunk->info = p]. *)
Definition store_chunk (chunk : pointer) (p : info_ptr) : M unit :=
  let* h := gets heap in
  match h !! chunk with
  | Some b => modify (set_heap (<[chunk := mk_block (blk_bytes b) (Some (mk_chunk p))]> h))
  | None => fail InvalidAccess
  end.

(** [malloc(sizeof(info_t))] followed by the initialisation of the three
    fields.  The tracker's own records live in a store of their own, with
    addresses handed out in increasing order; their allocation is taken to
    succeed, so that the [assert(NULL != info)] after it holds. *)
Definition new_info (i : info_t) : M info_ptr :=
  let* p := gets next_info in
  modify (fun s => set_next_info (S p) (set_infos (<[p := i]> (infos s)) s)) ;;
  ret p.

Definition load_info (p : info_ptr) : M info_t :=
  let* m := gets infos in
  match m !! p with
  | Some i => ret i
  | None => fail InvalidAccess
  end.

Definition store_info (p : info_ptr) (i : info_t) : M unit :=
  let* m := gets infos in
  match m !! p with
  | Some _ => modify (set_infos (<[p := i]> m))
  | None => fail InvalidAccess
  end.

Definition free_info (p : info_ptr) : M unit :=
  let* m := gets infos in
  match m !! p with
  | Some _ => modify (set_infos (delete p m))
  | None => fail InvalidAccess
  end.

(** The registry behind [__info_list]; [NULL] before initialisation. *)
Definition registry : M (list info_ptr) :=
  let* l := gets __info_list in
  match l with
  | Some c => ret c
  | None => fail InvalidAccess
  end.

(** [chain_back(list, &out); assert(NULL != out)] *)
Definition back_trace (i : info_t) : M trace_t :=
  match chain_back (trace_list i) with
  | Some t => ret t
  | None => fail AssertionFailed
  end.

(** *** Internal functions *)

Definition __watchdog_initialize : M unit :=
  let* initialized := gets __initialized in
  if initialized then ret tt
  else
    (if String.eqb WATCHDOG_OUTPUT "<stdout>" then modify (set_stream (Some stdout))
     else if String.eqb WATCHDOG_OUTPUT "<stderr>" then modify (set_stream (Some stderr))
     else if fopen_succeeds cfg then modify (set_stream (Some (fopened WATCHDOG_OUTPUT)))
     else fail Aborted) ;;
    modify (set_info_list (Some chain_new)) ;;
    atexit hook_terminate ;;
    atexit hook_report ;;
    atexit hook_collect ;;
    modify (set_initialized true) ;;
    let* stream := gets __stream in
    fprintf stream msg_initialized.

Definition __watchdog_log_call (call : call_t) (file : string) (line : Z)
    (args : list Z) : M unit :=
  let* initialized := gets __initialized in
  assert initialized ;;
  if WATCHDOG_VERBOSE =? 0 then ret tt
  else
    let* stream := gets __stream in
    match call, args with
    | CALL_MALLOC, size :: data :: _
    | CALL_CALLOC, size :: data :: _ =>
        if data =? NULL
        then fprintf stream (msg_error call file line) ;;
             fprintf stream (msg_alloc_failed size)
        else fprintf stream (msg_info call file line) ;;
             fprintf stream (msg_allocated size data)
    | CALL_REALLOC, size :: ptr :: data :: _ =>
        if data =? NULL
        then fprintf stream (msg_error call file line) ;;
             fprintf stream (msg_realloc_failed size)
        else fprintf stream (msg_info call file line) ;;
             fprintf stream (msg_reallocated size ptr data)
    | CALL_FREE, size :: data :: _ =>
        fprintf stream (msg_info call file line) ;;
        fprintf stream (msg_freed size data)
    | CALL_EXIT, exit_code :: _ =>
        fprintf stream (msg_warn call file line) ;;
        fprintf stream (msg_exit_code exit_code)
    | CALL_ABORT, _ =>
        fprintf stream (msg_warn call file line)
    | _, _ => fail InvalidAccess
    end.

Definition __watchdog_allocate (size : Z) (clear : bool) (file : string)
    (line : Z) (raw : pointer) : M pointer :=
  let* chunk := (if clear then calloc 1 (wrap (sizeof_chunk_t + size)) raw
                 else malloc (wrap (sizeof_chunk_t + size)) raw) in
  if chunk =? NULL then ret NULL
  else
    let trace := {| func := if clear then CALL_CALLOC else CALL_MALLOC;
                    file := file; line := line; size := size |} in
    let* info := new_info {| trace_list := chain_push chain_new trace;
                             address := chunk + sizeof_chunk_t;
                             allocated := true |} in
    let* l := registry in
    modify (set_info_list (Some (chain_push l info))) ;;
    store_chunk chunk info ;;
    modify (fun s => set_bytes_allocated (wrap (__bytes_allocated s + size)) s) ;;
    modify (fun s => set_allocations_counter (wrap (__allocations_counter s + 1)) s) ;;
    ret (chunk + sizeof_chunk_t).

Definition __watchdog_reallocate (ptr : pointer) (size : Z) (file : string)
    (line : Z) (raw : pointer) : M pointer :=
  let chunk := ptr - sizeof_chunk_t in
  let* c := load_chunk chunk in
  let info := info c in
  let* i := load_info info in
  let* last_trace := back_trace i in
  let old_size := Trace.size last_trace in
  let* chunk := realloc chunk (wrap (sizeof_chunk_t + size)) raw in
  if chunk =? NULL then ret NULL
  else
    store_chunk chunk info ;;
    let trace := {| func := CALL_REALLOC; file := file; line := line;
                    size := size |} in
    store_info info {| trace_list := chain_push (trace_list i) trace;
                       address := chunk + sizeof_chunk_t;
                       allocated := true |} ;;
    modify (fun s => set_bytes_allocated (wrap (__bytes_allocated s + size)) s) ;;
    modify (fun s => set_bytes_freed (wrap (__bytes_freed s + old_size)) s) ;;
    ret (chunk + sizeof_chunk_t).

Definition __watchdog_free (ptr : pointer) (file : string) (line : Z) : M Z :=
  let chunk := ptr - sizeof_chunk_t in
  let* c := load_chunk chunk in
  let info := info c in
  let* i := load_info info in
  let* last_trace := back_trace i in
  let bytes_freed := Trace.size last_trace in
  let trace := {| func := CALL_FREE; file := file; line := line; size := 0 |} in
  store_info info {| trace_list := chain_push (trace_list i) trace;
                     address := address i;
                     allocated := false |} ;;
  free chunk ;;
  modify (fun s => set_frees_counter (wrap (__frees_counter s + 1)) s) ;;
  modify (fun s => set_bytes_freed (wrap (__bytes_freed s + bytes_freed)) s) ;;
  ret bytes_freed.

(** *** The exit-time hooks *)

(** [for (info_t *current_info = NULL; chain_pop(__info_list, &current_info);)]:
    every record popped off the front of the registry has its traces popped
    and released, its trace chain deleted, and is released itself.  The two
    cases are those of [chain_pop]. *)
Fixpoint terminate_loop (l : list info_ptr) : M unit :=
  match l with
  | [] => ret tt
  | current_info :: rest =>
      modify (set_info_list (Some rest)) ;;
      load_info current_info ;;
      free_info current_info ;;
      terminate_loop rest
  end.

Definition __watchdog_terminate : M unit :=
  let* initialized := gets __initialized in
  assert initialized ;;
  let* l := registry in
  terminate_loop l ;;
  modify (set_info_list None) ;;
  let* stream := gets __stream in
  fprintf stream msg_terminated ;;
  match stream with
  | Some stdout | Some stderr => ret tt
  | _ => fclose stream
  end.

Definition __watchdog_report : M unit :=
  let* initialized := gets __initialized in
  assert initialized ;;
  if WATCHDOG_REPORT =? 0 then ret tt
  else
    let* stream := gets __stream in
    fprintf stream msg_report ;;
    let* l := registry in
    for_each (fun current_info =>
      let* i := load_info current_info in
      fprintf stream (msg_report_address (address i)) ;;
      for_each (fun current_trace =>
        fprintf stream (msg_report_trace (func current_trace) (file current_trace)
                          (line current_trace) (size current_trace)))
        (chain_iterate (trace_list i)))
      (chain_iterate l) ;;
    let* s := gets id in
    fprintf stream (msg_report_counts (__allocations_counter s) (__frees_counter s)) ;;
    fprintf stream (msg_report_bytes (__bytes_allocated s) (__bytes_freed s)
                      (__bytes_collected s)).

(** The body of the loop of [__watchdog_collect]. *)
Definition collect_info (stream : option FILE) (current_info : info_ptr) : M unit :=
  let* i := load_info current_info in
  let* current_trace := back_trace i in
  if allocated i then
    fprintf stream (msg_gc_address (address i)) ;;
    fprintf stream (msg_gc_still_allocated (func current_trace) (file current_trace)
                      (line current_trace) (size current_trace)) ;;
    __watchdog_free (address i) "<garbage collector>" 0 ;;
    modify (fun s => set_bytes_collected
                       (wrap (__bytes_collected s + size current_trace)) s)
  else ret tt.

Definition __watchdog_collect : M unit :=
  let* initialized := gets __initialized in
  assert initialized ;;
  if WATCHDOG_GC =? 0 then ret tt
  else
    let* stream := gets __stream in
    fprintf stream msg_gc ;;
    let* l := registry in
    for_each (collect_info stream) (chain_iterate l) ;;
    let* collected := gets __bytes_collected in
    fprintf stream (msg_gc_collected collected).

Definition call_hook (h : hook) : M unit :=
  match h with
  | hook_terminate => __watchdog_terminate
  | hook_report => __watchdog_report
  | hook_collect => __watchdog_collect
  end.

(** [exit(status)]: the functions registered with [atexit] are called in the
    reverse order of their registration (C11 7.22.4.4). *)
Definition exit (status : Z) : M unit :=
  let* table := gets atexit_table in
  for_each call_hook (rev table).

Definition abort : M unit := fail Aborted.

(** *** Protected functions *)

Definition _watchdog_malloc (size : Z) (_file : string) (_line : Z)
    (raw : pointer) : M pointer :=
  __watchdog_initialize ;;
  let* data := __watchdog_allocate size false _file _line raw in
  __watchdog_log_call CALL_MALLOC _file _line [size; data] ;;
  ret data.

Definition _watchdog_calloc (num size : Z) (_file : string) (_line : Z)
    (raw : pointer) : M pointer :=
  __watchdog_initialize ;;
  let actual_size := wrap (num * size) in
  let* data := __watchdog_allocate actual_size true _file _line raw in
  __watchdog_log_call CALL_CALLOC _file _line [actual_size; data] ;;
  ret data.

Definition _watchdog_realloc (ptr : pointer) (size : Z) (_file : string)
    (_line : Z) (raw : pointer) : M pointer :=
  __watchdog_initialize ;;
  let* data := __watchdog_reallocate ptr size _file _line raw in
  __watchdog_log_call CALL_REALLOC _file _line [size; ptr; data] ;;
  ret data.

Definition _watchdog_free (ptr : pointer) (_file : string) (_line : Z) : M unit :=
  __watchdog_initialize ;;
  let* bytes_freed := __watchdog_free ptr _file _line in
  __watchdog_log_call CALL_FREE _file _line [bytes_freed; ptr].

Definition _watchdog_exit (status : Z) (_file : string) (_line : Z) : M unit :=
  __watchdog_initialize ;;
  __watchdog_log_call CALL_EXIT _file _line [status] ;;
  exit status.

Definition _watchdog_abort (_file : string) (_line : Z) : M unit :=
  __watchdog_initialize ;;
  __watchdog_log_call CALL_ABORT _file _line [] ;;
  abort.

(** ** Runs of a client program *)

(** A call of the client into the tracker, together with the address the
    system allocator answers with when the call reaches it. *)
Inductive call :=
  | call_malloc (size : Z) (file : string) (line : Z) (raw : pointer)
  | call_calloc (num size : Z) (file : string) (line : Z) (raw : pointer)
  | call_realloc (ptr : pointer) (size : Z) (file : string) (line : Z) (raw : pointer)
  | call_free (ptr : pointer) (file : string) (line : Z).

Definition exec (c : call) : M unit :=
  match c with
  | call_malloc size file line raw => _watchdog_malloc size file line raw ;; ret tt
  | call_calloc num size file line raw => _watchdog_calloc num size file line raw ;; ret tt
  | call_realloc ptr size file line raw => _watchdog_realloc ptr size file line raw ;; ret tt
  | call_free ptr file line => _watchdog_free ptr file line
  end.

(** The system allocator never hands out the address of a live block: it
    answers [NULL], a free address above [NULL], or (when resizing) the
    address of the block that is resized. *)
Definition unused (raw : pointer) (s : state) : Prop :=
  0 < raw /\ heap s !! raw = None.

Definition allocator_ok (c : call) (s : state) : Prop :=
  match c with
  | call_malloc _ _ _ raw | call_calloc _ _ _ _ raw =>
      raw = NULL \/ unused raw s
  | call_realloc ptr _ _ _ raw =>
      raw = NULL \/ raw = ptr - sizeof_chunk_t \/ unused raw s
  | call_free _ _ _ => True
  end.

(** The states a process can be in after a sequence of calls none of which
    faulted. *)
Inductive reachable : state -> Prop :=
  | reachable_initial : reachable initial_state
  | reachable_step (c : call) (s s' : state) :
      reachable s -> allocator_ok c s -> exec c s = Ok (tt, s') -> reachable s'.

(** ** Quantities the properties speak of *)

(** The size a tracked chunk currently has: that of its last trace. *)
Definition chunk_size (i : info_t) : Z :=
  match chain_back (trace_list i) with
  | Some t => size t
  | None => 0
  end.

Definition live_size (o : option info_t) : Z :=
  match o with
  | Some i => if allocated i then chunk_size i else 0
  | None => 0
  end.

Definition live_count (o : option info_t) : Z :=
  match o with
  | Some i => if allocated i then 1 else 0
  | None => 0
  end.

Definition sum_over (f : option info_t -> Z) (m : gmap nat info_t)
    (l : list info_ptr) : Z :=
  foldr (fun p acc => f (m !! p) + acc) 0 l.

Definition tracked (s : state) : list info_ptr := default [] (__info_list s).

(** The sum of the sizes of the registered chunks that are marked allocated. *)
Definition live_bytes (s : state) : Z := sum_over live_size (infos s) (tracked s).

(** The number of registered chunks that are marked allocated. *)
Definition live_chunks (s : state) : Z := sum_over live_count (infos s) (tracked s).

(** ** The bookkeeping invariant *)

(** What holds of the tracker's data between two calls: the registry lists
    every record once, each live block of the system allocator carries the
    address of a record that is marked allocated and points back at the
    block, each record marked allocated has its block, no trace log is empty,
    the byte counters differ by the size of what is live, and every counter
    is a [size_t] value.  Before the first call nothing has happened at all. *)
Record consistent (s : state) : Prop := mk_consistent {
  cons_nodup : NoDup (tracked s);
  cons_registered : forall p, p ∈ tracked s <-> is_Some (infos s !! p);
  cons_next : forall p, is_Some (infos s !! p) -> (p < next_info s)%nat;
  cons_heap : forall chunk b, heap s !! chunk = Some b ->
    0 < chunk /\
    exists p i, blk_header b = Some (mk_chunk p) /\ infos s !! p = Some i /\
                allocated i = true /\ address i = chunk + sizeof_chunk_t;
  cons_live : forall p i, infos s !! p = Some i -> allocated i = true ->
    exists n, heap s !! (address i - sizeof_chunk_t)
              = Some (mk_block n (Some (mk_chunk p)));
  cons_traced : forall p i, infos s !! p = Some i ->
    is_Some (chain_back (trace_list i));
  cons_init :
    if __initialized s
    then is_Some (__info_list s) /\ is_Some (__stream s) /\
         atexit_table s = [hook_terminate; hook_report; hook_collect]
    else s = initial_state;
  cons_bytes :
    wrap (__bytes_allocated s - __bytes_freed s) = wrap (live_bytes s);
  cons_wrapped :
    wrap (__allocations_counter s) = __allocations_counter s /\
    wrap (__frees_counter s) = __frees_counter s /\
    wrap (__bytes_allocated s) = __bytes_allocated s /\
    wrap (__bytes_freed s) = __bytes_freed s /\
    wrap (__bytes_collected s) = __bytes_collected s
}.

(** *** What the functions compute, as closed expressions *)

(** The state [__watchdog_initialize] leaves behind on its first call, when
    the output stream [f] could be set up. *)
Definition initialized_state (f : FILE) (s : state) : state :=
  set_output (output s ++ [(f, msg_initialized)])
    (set_initialized true
       (set_atexit_table (atexit_table s ++ [hook_terminate; hook_report; hook_collect])
          (set_info_list (Some []) (set_stream (Some f) s)))).

(** The stream [__watchdog_initialize] selects, if any. *)
Definition selected_stream : option FILE :=
  if String.eqb WATCHDOG_OUTPUT "<stdout>" then Some stdout
  else if String.eqb WATCHDOG_OUTPUT "<stderr>" then Some stderr
  else if fopen_succeeds cfg then Some (fopened WATCHDOG_OUTPUT)
  else None.

(** The record of a chunk right after it was allocated. *)
Definition fresh_info (size : Z) (clear : bool) (file : string) (line : Z)
    (raw : pointer) : info_t :=
  {| trace_list := [mk_trace file line size (if clear then CALL_CALLOC else CALL_MALLOC)];
     address := raw + sizeof_chunk_t;
     allocated := true |}.

Definition allocated_state (size : Z) (clear : bool) (file : string) (line : Z)
    (raw : pointer) (l : list info_ptr) (s : state) : state :=
  set_allocations_counter (wrap (__allocations_counter s + 1))
    (set_bytes_allocated (wrap (__bytes_allocated s + size))
       (set_heap (<[raw := mk_block (wrap (sizeof_chunk_t + size))
                              (Some (mk_chunk (next_info s)))]> (heap s))
          (set_info_list (Some (l ++ [next_info s]))
             (set_next_info (S (next_info s))
                (set_infos (<[next_info s := fresh_info size clear file line raw]> (infos s))
                   s))))).

(** The record of a chunk right after a successful resize. *)
Definition resized_info (i : info_t) (size : Z) (file : string) (line : Z)
    (raw : pointer) : info_t :=
  {| trace_list := trace_list i ++ [mk_trace file line size CALL_REALLOC];
     address := raw + sizeof_chunk_t;
     allocated := true |}.

Definition reallocated_state (p : info_ptr) (i : info_t) (old_size : Z)
    (ptr : pointer) (size : Z) (file : string) (line : Z) (raw : pointer)
    (s : state) : state :=
  set_bytes_freed (wrap (__bytes_freed s + old_size))
    (set_bytes_allocated (wrap (__bytes_allocated s + size))
       (set_infos (<[p := resized_info i size file line raw]> (infos s))
          (set_heap (<[raw := mk_block (wrap (sizeof_chunk_t + size)) (Some (mk_chunk p))]>
                       (delete (ptr - sizeof_chunk_t) (heap s)))
             s))).

(** The record of a chunk right after it was released. *)
Definition released_info (i : info_t) (file : string) (line : Z) : info_t :=
  {| trace_list := trace_list i ++ [mk_trace file line 0 CALL_FREE];
     address := address i;
     allocated := false |}.

Definition freed_state (p : info_ptr) (i : info_t) (bytes_freed : Z)
    (ptr : pointer) (file : string) (line : Z) (s : state) : state :=
  set_bytes_freed (wrap (__bytes_freed s + bytes_freed))
    (set_frees_counter (wrap (__frees_counter s + 1))
       (set_heap (delete (ptr - sizeof_chunk_t) (heap s))
          (set_infos (<[p := released_info i file line]> (infos s)) s))).

(** What [__watchdog_log_call] prints in verbose mode. *)
Definition log_messages (call : call_t) (file : string) (line : Z)
    (args : list Z) : option (list message) :=
  match call, args with
  | CALL_MALLOC, size :: data :: _
  | CALL_CALLOC, size :: data :: _ =>
      Some (if data =? NULL
            then [msg_error call file line; msg_alloc_failed size]
            else [msg_info call file line; msg_allocated size data])
  | CALL_REALLOC, size :: ptr :: data :: _ =>
      Some (if data =? NULL
            then [msg_error call file line; msg_realloc_failed size]
            else [msg_info call file line; msg_reallocated size ptr data])
  | CALL_FREE, size :: data :: _ =>
      Some [msg_info call file line; msg_freed size data]
  | CALL_EXIT, exit_code :: _ =>
      Some [msg_warn call file line; msg_exit_code exit_code]
  | CALL_ABORT, _ => Some [msg_warn call file line]
  | _, _ => None
  end.

Definition logged (f : FILE) (ms : list message) (s : state) : state :=
  set_output (output s ++ map (pair f) ms) s.

(** [ptr] is the user pointer of a live chunk whose header holds [p], the
    address of the record [i], whose last trace is [t]. *)
Definition tracks (s : state) (ptr : pointer) (p : info_ptr) (i : info_t)
    (t : trace_t) : Prop :=
  (exists n, heap s !! (ptr - sizeof_chunk_t) = Some (mk_block n (Some (mk_chunk p)))) /\
  infos s !! p = Some i /\
  chain_back (trace_list i) = Some t.

(** What the collector prints for one record. *)
Definition gc_messages (o : option info_t) : list message :=
  match o with
  | Some i =>
      match chain_back (trace_list i) with
      | Some t =>
          if allocated i
          then [msg_gc_address (address i);
                msg_gc_still_allocated (func t) (file t) (line t) (size t)]
          else []
      | None => []
      end
  | None => []
  end.

Definition gc_report (m : gmap nat info_t) (l : list info_ptr) : list message :=
  flat_map (fun p => gc_messages (m !! p)) l.

(** What the collector makes of one record. *)
Definition collected_info (i : info_t) : info_t :=
  if allocated i then released_info i "<garbage collector>" 0 else i.

(** What the loop of the collector needs of the records it is about to
    visit, and of the counters it adds to. *)
Definition collectable (s : state) (l : list info_ptr) : Prop :=
  NoDup l /\
  (wrap (__frees_counter s) = __frees_counter s /\
   wrap (__bytes_freed s) = __bytes_freed s /\
   wrap (__bytes_collected s) = __bytes_collected s) /\
  forall p, p ∈ l ->
    exists i t, infos s !! p = Some i /\ chain_back (trace_list i) = Some t /\
      (allocated i = true ->
       exists n, heap s !! (address i - sizeof_chunk_t)
                 = Some (mk_block n (Some (mk_chunk p)))).

(** How the state [s'] after the loop of the collector over [l] relates to
    the state [s] before it. *)
Definition collected (f : FILE) (l : list info_ptr) (s s' : state) : Prop :=
  (forall q, infos s' !! q =
             if decide (q ∈ l) then collected_info <$> infos s !! q
             else infos s !! q) /\
  (forall c b, heap s' !! c = Some b -> heap s !! c = Some b) /\
  (forall p i, p ∈ l -> infos s !! p = Some i -> allocated i = true ->
               heap s' !! (address i - sizeof_chunk_t) = None) /\
  __frees_counter s' = wrap (__frees_counter s + sum_over live_count (infos s) l) /\
  __bytes_freed s' = wrap (__bytes_freed s + sum_over live_size (infos s) l) /\
  __bytes_collected s' = wrap (__bytes_collected s + sum_over live_size (infos s) l) /\
  output s' = output s ++ map (pair f) (gc_report (infos s) l) /\
  __stream s' = __stream s /\ __initialized s' = __initialized s /\
  __info_list s' = __info_list s /\
  __allocations_counter s' = __allocations_counter s /\
  __bytes_allocated s' = __bytes_allocated s /\
  next_info s' = next_info s /\ atexit_table s' = atexit_table s.

(** The state after the collector dealt with the live record [i] at [p]. *)
Definition collected_state (f : FILE) (p : info_ptr) (i : info_t) (t : trace_t)
    (s : state) : state :=
  let s1 := freed_state p i (size t) (address i) "<garbage collector>" 0
              (logged f (gc_messages (Some i)) s) in
  set_bytes_collected (wrap (__bytes_collected s1 + size t)) s1.

End Watchdog.

(** The tracker's bookkeeping is the same in [s'] as in [s]: the records,
    the registry, the live blocks and the five counters. *)
Definition same_bookkeeping (s s' : state) : Prop :=
  infos s' = infos s /\ tracked s' = tracked s /\ heap s' = heap s /\
  next_info s' = next_info s /\
  __allocations_counter s' = __allocations_counter s /\
  __frees_counter s' = __frees_counter s /\
  __bytes_allocated s' = __bytes_allocated s /\
  __bytes_freed s' = __bytes_freed s /\
  __bytes_collected s' = __bytes_collected s.

(** ** A concrete environment and a concrete run, for examples *)

(** A client program as the list of its calls. *)
Definition run (cfg : config) (calls : list call) : M unit :=
  for_each (exec cfg) calls.

(** [allocator_ok] at every call of a run. *)
Fixpoint run_ok (cfg : config) (calls : list call) (s : state) : Prop :=
  match calls with
  | [] => True
  | c :: rest =>
      allocator_ok cfg c s /\
      match exec cfg c s with
      | Ok (_, s') => run_ok cfg rest s'
      | Fault _ => False
      end
  end.

Definition state_of (r : res (unit * state)) : state :=
  match r with
  | Ok (_, s) => s
  | Fault _ => initial_state
  end.

(** 64-bit [size_t], 8-byte header, output on stdout, report, collection and
    verbose logging enabled. *)
Definition cfg64 : config :=
  {| size_t_bits := 64; chunk_header_bytes := 8; output_path := "<stdout>";
     report_flag := 1; gc_flag := 1; verbose_flag := 1; fopen_succeeds := true |}.

(** One chunk of 100 bytes, live. *)
Definition demo_calls_allocated : list call :=
  [call_malloc 100 "fileA" 10 4096].

Definition demo_allocated : state :=
  Eval vm_compute in state_of (run cfg64 demo_calls_allocated initial_state).

(** A chunk allocated, resized and released, and a second chunk of 50 bytes
    that is never released. *)
Definition demo_calls_leak : list call :=
  [call_malloc 100 "fileA" 10 4096;
   call_realloc 4104 250 "fileA" 20 8192;
   call_free 8200 "fileA" 30;
   call_malloc 50 "fileB" 7 4096].

Definition demo_leak : state :=
  Eval vm_compute in state_of (run cfg64 demo_calls_leak initial_state).

(** ** The rest of Watchdog.c *)

(** The name a call is printed under. *)
Definition __watchdog_call_to_string (call : call_t) : string :=
  match call with
  | CALL_MALLOC => "malloc"
  | CALL_CALLOC => "calloc"
  | CALL_REALLOC => "realloc"
  | CALL_FREE => "free"
  | CALL_EXIT => "exit"
  | CALL_ABORT => "abort"
  end.

(** What the report prints for one record: its address, then its traces
    first to last. *)
Definition record_messages (o : option info_t) : list message :=
  match o with
  | Some i =>
      msg_report_address (address i) ::
      map (fun t => msg_report_trace (func t) (file t) (line t) (size t))
        (trace_list i)
  | None => []
  end.

(** What the report prints in the state [s]: the header, the records in the
    order of the registry, the counters. *)
Definition report_messages (s : state) : list message :=
  [msg_report] ++
  flat_map (fun p => record_messages (infos s !! p)) (tracked s) ++
  [msg_report_counts (__allocations_counter s) (__frees_counter s);
   msg_report_bytes (__bytes_allocated s) (__bytes_freed s) (__bytes_collected s)].

(** What [__watchdog_terminate] prints and does to its stream. *)
Definition terminate_messages (f : FILE) : list message :=
  match f with
  | fopened _ => [msg_terminated; closed]
  | _ => [msg_terminated]
  end.

Section Effects.

Variable cfg : config.

Local Abbreviation sizeof_chunk_t := (chunk_header_bytes cfg).

(** The registry and its records are in place for the hooks: the tracker is
    initialised, has its stream and its registry, and the registry lists,
    once each, exactly the records there are. *)
Definition registered (s : state) : Prop :=
  __initialized s = true /\ is_Some (__stream s) /\ is_Some (__info_list s) /\
  NoDup (tracked s) /\
  forall p, p ∈ tracked s <-> is_Some (infos s !! p).

(** The counters of calls differ by the number of chunks that are live. *)
Definition counted (s : state) : Prop :=
  wrap cfg (__allocations_counter s - __frees_counter s) = wrap cfg (live_chunks s).

(** The history [s'] holds extends that of [s]: the registry of [s] is the
    beginning of that of [s'], and so is every trace log. *)
Definition extends (s s' : state) : Prop :=
  tracked s `prefix_of` tracked s' /\
  forall p i, infos s !! p = Some i ->
    exists i', infos s' !! p = Some i' /\ trace_list i `prefix_of` trace_list i'.

(** The ways one part of a call (the initialisation, the internal function,
    the logging) changes the state when it returns. *)
Inductive effect : state -> state -> Prop :=
  | effect_none (s : state) : effect s s
  | effect_initialized (f : FILE) :
      effect initial_state (initialized_state f initial_state)
  | effect_logged (f : FILE) (ms : list message) (s : state) :
      __initialized s = true -> effect s (logged f ms s)
  | effect_allocated (s : state) (size : Z) (clear : bool) (file : string)
      (line : Z) (raw : pointer) (l : list info_ptr) :
      __initialized s = true -> __info_list s = Some l ->
      0 < raw -> heap s !! raw = None ->
      effect s (allocated_state cfg size clear file line raw l s)
  | effect_reallocated (s : state) (ptr : pointer) (size : Z) (file : string)
      (line : Z) (raw : pointer) (n : Z) (c : chunk_t) (i : info_t) (t : trace_t) :
      heap s !! (ptr - sizeof_chunk_t) = Some (mk_block n (Some c)) ->
      infos s !! info c = Some i ->
      chain_back (trace_list i) = Some t ->
      raw = ptr - sizeof_chunk_t \/ unused raw s ->
      effect s (reallocated_state cfg (info c) i (Trace.size t) ptr size file line raw s)
  | effect_freed (s : state) (ptr : pointer) (file : string) (line : Z)
      (n : Z) (c : chunk_t) (i : info_t) (t : trace_t) :
      heap s !! (ptr - sizeof_chunk_t) = Some (mk_block n (Some c)) ->
      infos s !! info c = Some i ->
      chain_back (trace_list i) = Some t ->
      effect s (freed_state cfg (info c) i (Trace.size t) ptr file line s).

End Effects.

(** ** Alligator.c: the allocator that only passes calls on *)

Module Alligator.

Section Alligator.

Variable cfg : config.

(** [free(ptr)] of the C library: [NULL] is ignored. *)
Definition libc_free (ptr : pointer) : M unit :=
  if ptr =? NULL then ret tt else free ptr.

(** [calloc(nmemb, size)] of the C library: a product that is no [size_t]
    value is answered with [NULL]. *)
Definition libc_calloc (nmemb size : Z) (raw : pointer) : M pointer :=
  if wrap cfg (nmemb * size) =? nmemb * size then malloc (nmemb * size) raw
  else ret NULL.

(** [realloc(ptr, size)] of the C library: with [NULL] it allocates. *)
Definition libc_realloc (ptr : pointer) (size : Z) (raw : pointer) : M pointer :=
  if ptr =? NULL then malloc size raw else realloc ptr size raw.

(** [__ensure]: when the assertion fails, the location and the message go to
    [stderr] and the process aborts; nothing of the state outlives that. *)
Definition __ensure (assertion : bool) (message file : string) (line : Z) : M unit :=
  if assertion then ret tt else abort.

Definition alligator_malloc_ (size : Z) (__file : string) (__line : Z)
    (strerror : string) (raw : pointer) : M pointer :=
  let* chunk := malloc size raw in
  __ensure (negb (chunk =? NULL)) strerror __file __line ;;
  ret chunk.

Definition alligator_calloc_ (nmemb size : Z) (__file : string) (__line : Z)
    (strerror : string) (raw : pointer) : M pointer :=
  let* chunk := libc_calloc nmemb size raw in
  __ensure (negb (chunk =? NULL)) strerror __file __line ;;
  ret chunk.

Definition alligator_realloc_ (ptr : pointer) (size : Z) (__file : string)
    (__line : Z) (strerror : string) (raw : pointer) : M pointer :=
  let* chunk := libc_realloc ptr size raw in
  __ensure (negb (chunk =? NULL)) strerror __file __line ;;
  ret chunk.

Definition alligator_free_ (ptr : pointer) (__file : string) (__line : Z) : M unit :=
  libc_free ptr.

End Alligator.

End Alligator.

(** * Properties *)

(** ** Arithmetic modulo the width of [size_t] *)

Section Arithmetic.

Variable cfg : config.

Lemma wrap_wrap x : wrap cfg (wrap cfg x) = wrap cfg x.
Proof. apply Zmod_mod. Qed.

Lemma wrap_add_l a b : wrap cfg (wrap cfg a + b) = wrap cfg (a + b).
Proof. apply Zplus_mod_idemp_l. Qed.

Lemma wrap_add_r a b : wrap cfg (a + wrap cfg b) = wrap cfg (a + b).
Proof. apply Zplus_mod_idemp_r. Qed.

Lemma wrap_sub_l a b : wrap cfg (wrap cfg a - b) = wrap cfg (a - b).
Proof. apply Zminus_mod_idemp_l. Qed.

Lemma wrap_sub_r a b : wrap cfg (a - wrap cfg b) = wrap cfg (a - b).
Proof. apply Zminus_mod_idemp_r. Qed.

(** Congruent numbers stay congruent when the same amount is added. *)
Lemma wrap_add_congr a b c :
  wrap cfg a = wrap cfg b -> wrap cfg (a + c) = wrap cfg (b + c).
Proof. intros H. rewrite <- (wrap_add_l a), H. apply wrap_add_l. Qed.

End Arithmetic.

(** ** The functions in closed form *)

Section ClosedForms.

Variable cfg : config.

Local Abbreviation sizeof_chunk_t := (chunk_header_bytes cfg).

Lemma __watchdog_initialize_eq (s : state) :
  __watchdog_initialize cfg s =
    if __initialized s then Ok (tt, s)
    else match selected_stream cfg with
         | Some f => Ok (tt, initialized_state f s)
         | None => Fault Aborted
         end.
Proof.
  unfold __watchdog_initialize, selected_stream, initialized_state, atexit, fprintf.
  unfold bind, gets, modify, ret, fail. simpl.
  destruct (__initialized s); [done|].
  repeat case_match; simplify_eq/=; try done;
    by rewrite <- !app_assoc.
Qed.

Lemma __watchdog_log_call_eq call file line args (s : state) :
  __watchdog_log_call cfg call file line args s =
    if __initialized s then
      if verbose_flag cfg =? 0 then Ok (tt, s)
      else match log_messages call file line args, __stream s with
           | Some ms, Some f => Ok (tt, logged f ms s)
           | _, _ => Fault InvalidAccess
           end
    else Fault AssertionFailed.
Proof.
  unfold __watchdog_log_call, log_messages, logged, fprintf.
  unfold bind, gets, modify, ret, fail, assert. simpl.
  destruct (__initialized s); [|done]. simpl.
  destruct (verbose_flag cfg =? 0); [done|].
  destruct (__stream s) as [f|];
    destruct call; destruct args as [|a1 [|a2 [|a3 args]]]; simpl; try done;
    repeat case_match; simpl; try done; by rewrite <- !app_assoc.
Qed.

Lemma __watchdog_allocate_eq size clear file line raw (s : state) :
  __watchdog_allocate cfg size clear file line raw s =
    if raw =? NULL then Ok (NULL, s)
    else match __info_list s with
         | Some l => Ok (raw + sizeof_chunk_t,
                         allocated_state cfg size clear file line raw l s)
         | None => Fault InvalidAccess
         end.
Proof.
  unfold __watchdog_allocate, allocated_state, fresh_info, calloc, malloc,
    new_info, registry, store_chunk, chain_push, chain_new.
  unfold bind, gets, modify, ret, fail. simpl.
  destruct (raw =? NULL) eqn:Hraw; destruct clear; simpl; rewrite ?Hraw; try done;
    simpl; destruct (__info_list s) as [l|]; simpl; try done;
    rewrite lookup_insert_eq; simpl; rewrite insert_insert_eq;
    rewrite ?Z.mul_1_l, ?wrap_wrap; done.
Qed.

Lemma __watchdog_reallocate_eq ptr size file line raw (s : state) :
  __watchdog_reallocate cfg ptr size file line raw s =
    match heap s !! (ptr - sizeof_chunk_t) with
    | Some (mk_block _ (Some c)) =>
        match infos s !! info c with
        | Some i =>
            match chain_back (trace_list i) with
            | Some last_trace =>
                if raw =? NULL then Ok (NULL, s)
                else Ok (raw + sizeof_chunk_t,
                         reallocated_state cfg (info c) i (Trace.size last_trace)
                           ptr size file line raw s)
            | None => Fault AssertionFailed
            end
        | None => Fault InvalidAccess
        end
    | _ => Fault InvalidAccess
    end.
Proof.
  unfold __watchdog_reallocate, reallocated_state, resized_info, load_chunk,
    load_info, back_trace, realloc, store_chunk, store_info, chain_push.
  unfold bind, gets, modify, ret, fail. simpl.
  destruct (heap s !! (ptr - sizeof_chunk_t)) as [[n [c|]]|] eqn:Hh; simpl; try done.
  destruct (infos s !! info c) as [i|] eqn:Hi; simpl; try done.
  destruct (chain_back (trace_list i)) as [t|]; simpl; try done.
  rewrite Hh. destruct (raw =? NULL) eqn:Hraw; simpl; [done|].
  rewrite Hraw. simpl. rewrite lookup_insert_eq. simpl. rewrite Hi. simpl.
  by rewrite insert_insert_eq.
Qed.

Lemma __watchdog_free_eq ptr file line (s : state) :
  __watchdog_free cfg ptr file line s =
    match heap s !! (ptr - sizeof_chunk_t) with
    | Some (mk_block _ (Some c)) =>
        match infos s !! info c with
        | Some i =>
            match chain_back (trace_list i) with
            | Some last_trace =>
                Ok (size last_trace,
                    freed_state cfg (info c) i (size last_trace) ptr file line s)
            | None => Fault AssertionFailed
            end
        | None => Fault InvalidAccess
        end
    | _ => Fault InvalidAccess
    end.
Proof.
  unfold __watchdog_free, freed_state, released_info, load_chunk, load_info,
    back_trace, free, store_info, chain_push.
  unfold bind, gets, modify, ret, fail. simpl.
  destruct (heap s !! (ptr - sizeof_chunk_t)) as [[n [c|]]|] eqn:Hh; simpl; try done.
  destruct (infos s !! info c) as [i|] eqn:Hi; simpl; try done.
  destruct (chain_back (trace_list i)) as [t|]; simpl; try done.
  by rewrite Hi; simpl; rewrite Hh.
Qed.

End ClosedForms.

(** ** Sums over the registry *)

Section Sums.

Variable f : option info_t -> Z.

Lemma sum_over_app (m : gmap nat info_t) (l1 l2 : list nat) :
  sum_over f m (l1 ++ l2) = sum_over f m l1 + sum_over f m l2.
Proof.
  induction l1 as [|p l1 IH]; simpl; [done|]. rewrite IH. lia.
Qed.

Lemma sum_over_insert_notin (m : gmap nat info_t) (l : list nat) p i :
  p ∉ l -> sum_over f (<[p := i]> m) l = sum_over f m l.
Proof.
  induction l as [|q l IH]; simpl; [done|].
  intros Hp. apply not_elem_of_cons in Hp as [Hne Hp].
  rewrite lookup_insert_ne by done. by rewrite IH.
Qed.

(** Replacing the record at one registered address changes the sum by the
    difference of the two summands. *)
Lemma sum_over_insert (m : gmap nat info_t) (l : list nat) p i :
  NoDup l -> p ∈ l ->
  sum_over f (<[p := i]> m) l = sum_over f m l - f (m !! p) + f (Some i).
Proof.
  induction l as [|q l IH]; simpl; intros Hnd Hp.
  - by apply elem_of_nil in Hp.
  - apply NoDup_cons in Hnd as [Hq Hnd].
    destruct (decide (p = q)) as [->|Hne].
    + rewrite lookup_insert_eq, sum_over_insert_notin by done. lia.
    + apply elem_of_cons in Hp as [?|Hp]; [done|].
      rewrite lookup_insert_ne, IH by done. lia.
Qed.

End Sums.

(** ** The invariant holds between any two calls *)

Section Invariant.

Variable cfg : config.

Local Abbreviation sizeof_chunk_t := (chunk_header_bytes cfg).

(** The record behind a live block, read the way the source reads it. *)
Lemma live_block (s : state) chunk n c :
  consistent cfg s ->
  heap s !! chunk = Some (mk_block n (Some c)) ->
  exists i t, infos s !! info c = Some i /\ chain_back (trace_list i) = Some t /\
              allocated i = true /\ address i = chunk + sizeof_chunk_t /\
              info c ∈ tracked s /\ 0 < chunk.
Proof.
  intros Hc Hh.
  destruct (cons_heap _ _ Hc _ _ Hh) as (Hpos & p & i & Hhd & Hi & Ha & Haddr).
  simpl in Hhd. injection Hhd as ->. simpl.
  destruct (cons_traced _ _ Hc _ _ Hi) as [t Ht].
  exists i, t. repeat split; try done.
  apply (cons_registered _ _ Hc). by rewrite Hi.
Qed.

(** Two records marked allocated do not share a block. *)
Lemma live_blocks_apart (s : state) p q i j :
  consistent cfg s ->
  infos s !! p = Some i -> allocated i = true ->
  infos s !! q = Some j -> allocated j = true ->
  address i = address j -> p = q.
Proof.
  intros Hc Hi Hai Hj Haj Heq.
  destruct (cons_live _ _ Hc _ _ Hi Hai) as [n Hn].
  destruct (cons_live _ _ Hc _ _ Hj Haj) as [n' Hn'].
  rewrite Heq in Hn. rewrite Hn in Hn'. by injection Hn'.
Qed.

Lemma live_size_allocated i t :
  chain_back (trace_list i) = Some t -> allocated i = true ->
  live_size (Some i) = size t.
Proof. intros Ht Ha. unfold live_size, chunk_size. by rewrite Ha, Ht. Qed.

Lemma freed_state_consistent (s : state) ptr file line n c i t :
  consistent cfg s ->
  heap s !! (ptr - sizeof_chunk_t) = Some (mk_block n (Some c)) ->
  infos s !! info c = Some i ->
  chain_back (trace_list i) = Some t ->
  consistent cfg (freed_state cfg (info c) i (size t) ptr file line s).
Proof.
  intros Hc Hh Hi Ht.
  destruct (live_block _ _ _ _ Hc Hh) as (i' & t' & Hi' & _ & Ha & Haddr & Hin & Hpos).
  rewrite Hi in Hi'. injection Hi' as <-.
  set (p := info c) in *.
  split; simpl.
  - apply (cons_nodup _ _ Hc).
  - intros q. rewrite (cons_registered _ _ Hc q).
    destruct (decide (p = q)) as [<-|Hne].
    + rewrite lookup_insert_eq, Hi. split; eauto.
    + by rewrite lookup_insert_ne.
  - intros q Hq. apply (cons_next _ _ Hc).
    destruct (decide (p = q)) as [<-|Hne]; [by rewrite Hi|].
    by rewrite lookup_insert_ne in Hq.
  - intros chunk b Hb.
    apply lookup_delete_Some in Hb as [Hne Hb].
    destruct (cons_heap _ _ Hc _ _ Hb) as (? & q & j & Hhd & Hj & Haj & Haddrj).
    split; [done|]. exists q, j. repeat split; try done.
    rewrite lookup_insert_ne; [done|].
    intros <-. rewrite Hi in Hj. injection Hj as <-. lia.
  - intros q j Hj Haj.
    destruct (decide (p = q)) as [<-|Hne].
    + rewrite lookup_insert_eq in Hj. injection Hj as <-. by simpl in Haj.
    + rewrite lookup_insert_ne in Hj by done.
      destruct (cons_live _ _ Hc _ _ Hj Haj) as [m Hm].
      exists m. rewrite lookup_delete_ne; [done|].
      intros Heq. rewrite <- Heq, Hh in Hm. injection Hm as _ Hcq.
      apply Hne. unfold p. by rewrite Hcq.
  - intros q j Hj.
    destruct (decide (p = q)) as [<-|Hne].
    + rewrite lookup_insert_eq in Hj. injection Hj as <-. simpl.
      unfold chain_back. rewrite last_snoc. eauto.
    + rewrite lookup_insert_ne in Hj by done. apply (cons_traced _ _ Hc _ _ Hj).
  - pose proof (cons_init _ _ Hc) as Hinit.
    destruct (__initialized s); [done|].
    rewrite Hinit in Hh. cbn [heap initial_state] in Hh.
    by rewrite lookup_empty in Hh.
  - unfold live_bytes, tracked. simpl.
    rewrite sum_over_insert by (apply (cons_nodup _ _ Hc) || done).
    rewrite Hi, (live_size_allocated _ _ Ht Ha). simpl.
    rewrite wrap_sub_r.
    replace (__bytes_allocated s - (__bytes_freed s + size t))
      with (__bytes_allocated s - __bytes_freed s + (- size t)) by lia.
    replace (sum_over live_size (infos s) (default [] (__info_list s)) - size t + 0)
      with (live_bytes s + (- size t)) by (unfold live_bytes, tracked; lia).
    apply wrap_add_congr, (cons_bytes _ _ Hc).
  - destruct (cons_wrapped _ _ Hc) as (? & ? & ? & ? & ?).
    by rewrite !wrap_wrap.
Qed.

Lemma reallocated_state_consistent (s : state) ptr sz file line raw n c i t :
  consistent cfg s ->
  heap s !! (ptr - sizeof_chunk_t) = Some (mk_block n (Some c)) ->
  infos s !! info c = Some i ->
  chain_back (trace_list i) = Some t ->
  raw = ptr - sizeof_chunk_t \/ (0 < raw /\ heap s !! raw = None) ->
  consistent cfg (reallocated_state cfg (info c) i (size t) ptr sz file line raw s).
Proof.
  intros Hc Hh Hi Ht Hraw.
  destruct (live_block _ _ _ _ Hc Hh) as (i' & t' & Hi' & _ & Ha & Haddr & Hin & Hpos).
  rewrite Hi in Hi'. injection Hi' as <-.
  set (p := info c) in *.
  assert (Hrawpos : 0 < raw) by (destruct Hraw as [->|[? _]]; done).
  assert (Hother : forall a b, a ≠ ptr - sizeof_chunk_t -> heap s !! a = Some b -> a ≠ raw).
  { intros a b Hne Hb ->. destruct Hraw as [?|[_ Hnone]]; [done|]. by rewrite Hnone in Hb. }
  split; simpl.
  - apply (cons_nodup _ _ Hc).
  - intros q. rewrite (cons_registered _ _ Hc q).
    destruct (decide (p = q)) as [<-|Hne].
    + rewrite lookup_insert_eq, Hi. split; eauto.
    + by rewrite lookup_insert_ne.
  - intros q Hq. apply (cons_next _ _ Hc).
    destruct (decide (p = q)) as [<-|Hne]; [by rewrite Hi|].
    by rewrite lookup_insert_ne in Hq.
  - intros chunk b Hb.
    destruct (decide (raw = chunk)) as [<-|Hne].
    + rewrite lookup_insert_eq in Hb. injection Hb as <-. simpl.
      split; [done|]. exists p, (resized_info cfg i sz file line raw).
      by rewrite lookup_insert_eq.
    + rewrite lookup_insert_ne in Hb by done.
      apply lookup_delete_Some in Hb as [Hne' Hb].
      destruct (cons_heap _ _ Hc _ _ Hb) as (? & q & j & Hhd & Hj & Haj & Haddrj).
      split; [done|]. exists q, j. repeat split; try done.
      rewrite lookup_insert_ne; [done|].
      intros <-. rewrite Hi in Hj. injection Hj as <-. lia.
  - intros q j Hj Haj.
    destruct (decide (p = q)) as [<-|Hne].
    + rewrite lookup_insert_eq in Hj. injection Hj as <-. simpl.
      exists (wrap cfg (sizeof_chunk_t + sz)).
      replace (raw + sizeof_chunk_t - sizeof_chunk_t) with raw by lia.
      by rewrite lookup_insert_eq.
    + rewrite lookup_insert_ne in Hj by done.
      destruct (cons_live _ _ Hc _ _ Hj Haj) as [m Hm].
      assert (Hapart : address j - sizeof_chunk_t ≠ ptr - sizeof_chunk_t).
      { intros Heq. rewrite Heq, Hh in Hm. injection Hm as _ Hcq.
        apply Hne. unfold p. by rewrite Hcq. }
      exists m. rewrite lookup_insert_ne by (apply not_eq_sym; eauto).
      by rewrite lookup_delete_ne.
  - intros q j Hj.
    destruct (decide (p = q)) as [<-|Hne].
    + rewrite lookup_insert_eq in Hj. injection Hj as <-. simpl.
      unfold chain_back. rewrite last_snoc. eauto.
    + rewrite lookup_insert_ne in Hj by done. apply (cons_traced _ _ Hc _ _ Hj).
  - pose proof (cons_init _ _ Hc) as Hinit.
    destruct (__initialized s); [done|].
    rewrite Hinit in Hh. cbn [heap initial_state] in Hh.
    by rewrite lookup_empty in Hh.
  - unfold live_bytes, tracked. simpl.
    rewrite sum_over_insert by (apply (cons_nodup _ _ Hc) || done).
    rewrite Hi, (live_size_allocated _ _ Ht Ha).
    unfold live_size at 2, chunk_size, chain_back. simpl. rewrite last_snoc. simpl.
    rewrite wrap_sub_l, wrap_sub_r.
    replace (__bytes_allocated s + sz - (__bytes_freed s + size t))
      with (__bytes_allocated s - __bytes_freed s + (sz - size t)) by lia.
    replace (sum_over live_size (infos s) (default [] (__info_list s)) - size t + sz)
      with (live_bytes s + (sz - size t)) by (unfold live_bytes, tracked; lia).
    apply wrap_add_congr, (cons_bytes _ _ Hc).
  - destruct (cons_wrapped _ _ Hc) as (? & ? & ? & ? & ?).
    by rewrite !wrap_wrap.
Qed.

Lemma allocated_state_consistent (s : state) sz clear file line raw l :
  consistent cfg s ->
  __initialized s = true ->
  __info_list s = Some l ->
  0 < raw -> heap s !! raw = None ->
  consistent cfg (allocated_state cfg sz clear file line raw l s).
Proof.
  intros Hc Hinit Hl Hpos Hraw.
  assert (Hreg : forall q, q ∈ l <-> is_Some (infos s !! q)).
  { intros q. rewrite <- (cons_registered _ _ Hc q). unfold tracked. by rewrite Hl. }
  assert (Hfresh : infos s !! next_info s = None).
  { destruct (infos s !! next_info s) as [j|] eqn:Hj; [|done].
    assert (next_info s < next_info s)%nat; [|lia].
    apply (cons_next _ _ Hc). by rewrite Hj. }
  assert (Hnotin : next_info s ∉ l).
  { rewrite Hreg, Hfresh. by intros [? ?]. }
  split; simpl.
  - unfold tracked. simpl. apply NoDup_app. repeat split.
    + pose proof (cons_nodup _ _ Hc) as Hnd. unfold tracked in Hnd. by rewrite Hl in Hnd.
    + intros q Hq Hq'. apply list_elem_of_singleton in Hq' as ->. done.
    + apply NoDup_singleton.
  - intros q. unfold tracked. simpl.
    rewrite elem_of_app, list_elem_of_singleton, Hreg.
    destruct (decide (next_info s = q)) as [<-|Hne].
    + rewrite lookup_insert_eq. split; eauto.
    + rewrite lookup_insert_ne by done. split; [intros [?|?]; done|eauto].
  - intros q Hq.
    destruct (decide (next_info s = q)) as [<-|Hne]; [lia|].
    rewrite lookup_insert_ne in Hq by done.
    pose proof (cons_next _ _ Hc _ Hq). lia.
  - intros chunk b Hb.
    destruct (decide (raw = chunk)) as [<-|Hne].
    + rewrite lookup_insert_eq in Hb. injection Hb as <-. simpl.
      split; [done|]. exists (next_info s), (fresh_info cfg sz clear file line raw).
      by rewrite lookup_insert_eq.
    + rewrite lookup_insert_ne in Hb by done.
      destruct (cons_heap _ _ Hc _ _ Hb) as (? & q & j & Hhd & Hj & Haj & Haddrj).
      split; [done|]. exists q, j. repeat split; try done.
      rewrite lookup_insert_ne; [done|].
      intros <-. by rewrite Hfresh in Hj.
  - intros q j Hj Haj.
    destruct (decide (next_info s = q)) as [<-|Hne].
    + rewrite lookup_insert_eq in Hj. injection Hj as <-. simpl.
      exists (wrap cfg (sizeof_chunk_t + sz)).
      replace (raw + sizeof_chunk_t - sizeof_chunk_t) with raw by lia.
      by rewrite lookup_insert_eq.
    + rewrite lookup_insert_ne in Hj by done.
      destruct (cons_live _ _ Hc _ _ Hj Haj) as [m Hm].
      exists m. rewrite lookup_insert_ne; [done|].
      intros Heq. by rewrite <- Heq, Hraw in Hm.
  - intros q j Hj.
    destruct (decide (next_info s = q)) as [<-|Hne].
    + rewrite lookup_insert_eq in Hj. injection Hj as <-. simpl. eauto.
    + rewrite lookup_insert_ne in Hj by done. apply (cons_traced _ _ Hc _ _ Hj).
  - pose proof (cons_init _ _ Hc) as Hi. rewrite Hinit in Hi |- *.
    destruct Hi as (_ & ? & ?). eauto.
  - unfold live_bytes, tracked. simpl.
    rewrite sum_over_app, sum_over_insert_notin by done. simpl.
    rewrite lookup_insert_eq.
    change (live_size (Some (fresh_info cfg sz clear file line raw))) with sz.
    rewrite wrap_sub_l.
    replace (__bytes_allocated s + sz - __bytes_freed s)
      with (__bytes_allocated s - __bytes_freed s + sz) by lia.
    replace (sum_over live_size (infos s) l + (sz + 0))
      with (live_bytes s + sz) by (unfold live_bytes, tracked; rewrite Hl; simpl; lia).
    apply wrap_add_congr, (cons_bytes _ _ Hc).
  - destruct (cons_wrapped _ _ Hc) as (? & ? & ? & ? & ?).
    by rewrite !wrap_wrap.
Qed.

Lemma initial_state_consistent : consistent cfg initial_state.
Proof.
  split; simpl; try done.
  - apply NoDup_nil_2.
  - intros p. rewrite lookup_empty. split; [by intros ?%elem_of_nil|by intros [? ?]].
  - intros p. rewrite lookup_empty. by intros [? ?].
Qed.

Lemma initialized_state_consistent f :
  consistent cfg (initialized_state f initial_state).
Proof.
  split; simpl; try done.
  - apply NoDup_nil_2.
  - intros p. rewrite lookup_empty. split; [by intros ?%elem_of_nil|by intros [? ?]].
  - intros p. rewrite lookup_empty. by intros [? ?].
Qed.

Lemma logged_consistent f ms (s : state) :
  consistent cfg s -> __initialized s = true -> consistent cfg (logged f ms s).
Proof.
  intros [] Hinit. split; simpl; try done. by rewrite Hinit in *.
Qed.

Lemma __watchdog_initialize_consistent (s s0 : state) :
  consistent cfg s ->
  __watchdog_initialize cfg s = Ok (tt, s0) ->
  consistent cfg s0 /\ __initialized s0 = true /\ heap s0 = heap s.
Proof.
  intros Hc. rewrite __watchdog_initialize_eq.
  pose proof (cons_init _ _ Hc) as Hinit.
  destruct (__initialized s) eqn:Hi.
  - intros [= <-]. done.
  - destruct (selected_stream cfg) as [f|]; [|done].
    intros [= <-]. rewrite Hinit. split; [|done]. apply initialized_state_consistent.
Qed.

Lemma __watchdog_log_call_consistent call file line args (s s' : state) :
  consistent cfg s ->
  __watchdog_log_call cfg call file line args s = Ok (tt, s') ->
  consistent cfg s'.
Proof.
  intros Hc. rewrite __watchdog_log_call_eq.
  destruct (__initialized s) eqn:Hi; [|done].
  destruct (verbose_flag cfg =? 0); [by intros [= <-]|].
  destruct (log_messages call file line args) as [ms|]; [|done].
  destruct (__stream s) as [f|]; [|done].
  intros [= <-]. by apply logged_consistent.
Qed.

Lemma __watchdog_allocate_consistent size clear file line raw r (s s' : state) :
  consistent cfg s -> __initialized s = true ->
  raw = NULL \/ unused raw s ->
  __watchdog_allocate cfg size clear file line raw s = Ok (r, s') ->
  consistent cfg s'.
Proof.
  intros Hc Hi Hraw. rewrite __watchdog_allocate_eq.
  destruct (raw =? NULL) eqn:Hnull; [by intros [= _ <-]|].
  destruct (__info_list s) as [l|] eqn:Hl; [|done].
  intros [= _ <-].
  destruct Hraw as [->|[Hpos Hfree]]; [done|].
  by apply allocated_state_consistent.
Qed.

Lemma __watchdog_reallocate_consistent ptr size file line raw r (s s' : state) :
  consistent cfg s ->
  raw = NULL \/ raw = ptr - sizeof_chunk_t \/ unused raw s ->
  __watchdog_reallocate cfg ptr size file line raw s = Ok (r, s') ->
  consistent cfg s'.
Proof.
  intros Hc Hraw. rewrite __watchdog_reallocate_eq.
  destruct (heap s !! (ptr - sizeof_chunk_t)) as [[n [c|]]|] eqn:Hh; try done.
  destruct (infos s !! info c) as [i|] eqn:Hi; [|done].
  destruct (chain_back (trace_list i)) as [t|] eqn:Ht; [|done].
  destruct (raw =? NULL) eqn:Hnull; [by intros [= _ <-]|].
  intros [= _ <-].
  destruct Hraw as [->|Hraw]; [done|].
  by eapply reallocated_state_consistent.
Qed.

Lemma __watchdog_free_consistent ptr file line r (s s' : state) :
  consistent cfg s ->
  __watchdog_free cfg ptr file line s = Ok (r, s') ->
  consistent cfg s'.
Proof.
  intros Hc. rewrite __watchdog_free_eq.
  destruct (heap s !! (ptr - sizeof_chunk_t)) as [[n [c|]]|] eqn:Hh; try done.
  destruct (infos s !! info c) as [i|] eqn:Hi; [|done].
  destruct (chain_back (trace_list i)) as [t|] eqn:Ht; [|done].
  intros [= _ <-]. by eapply freed_state_consistent.
Qed.

(** The internal functions leave [__initialized] as it is. *)
Lemma __watchdog_allocate_initialized size clear file line raw r (s s' : state) :
  __watchdog_allocate cfg size clear file line raw s = Ok (r, s') ->
  __initialized s' = __initialized s.
Proof.
  rewrite __watchdog_allocate_eq. repeat case_match; by intros [= _ <-].
Qed.

Lemma __watchdog_reallocate_initialized ptr size file line raw r (s s' : state) :
  __watchdog_reallocate cfg ptr size file line raw s = Ok (r, s') ->
  __initialized s' = __initialized s.
Proof.
  rewrite __watchdog_reallocate_eq. repeat case_match; by intros [= _ <-].
Qed.

Lemma __watchdog_free_initialized ptr file line r (s s' : state) :
  __watchdog_free cfg ptr file line s = Ok (r, s') ->
  __initialized s' = __initialized s.
Proof.
  rewrite __watchdog_free_eq. repeat case_match; by intros [= _ <-].
Qed.

Lemma exec_consistent (c : call) (s s' : state) :
  consistent cfg s -> allocator_ok cfg c s ->
  exec cfg c s = Ok (tt, s') ->
  consistent cfg s'.
Proof.
  intros Hc Hok Hexec.
  destruct c as [sz fl ln raw|num sz fl ln raw|ptr sz fl ln raw|ptr fl ln];
    simpl in Hexec, Hok;
    unfold _watchdog_malloc, _watchdog_calloc, _watchdog_realloc, _watchdog_free in Hexec;
    unfold bind in Hexec;
    destruct (__watchdog_initialize cfg s) as [[[] s0]|] eqn:Einit; try discriminate Hexec;
    destruct (__watchdog_initialize_consistent _ _ Hc Einit) as (Hc0 & Hi0 & Hheap);
    unfold unused in Hok; rewrite <- ?Hheap in Hok.
  - destruct (__watchdog_allocate cfg sz false fl ln raw s0) as [[r s1]|] eqn:Eop;
      [|discriminate Hexec].
    destruct (__watchdog_log_call cfg CALL_MALLOC fl ln [sz; r] s1) as [[[] s2]|] eqn:Elog;
      [|discriminate Hexec].
    injection Hexec as <-.
    eapply __watchdog_log_call_consistent; [|exact Elog].
    eapply __watchdog_allocate_consistent; eauto.
  - destruct (__watchdog_allocate cfg (wrap cfg (num * sz)) true fl ln raw s0)
      as [[r s1]|] eqn:Eop; [|discriminate Hexec].
    destruct (__watchdog_log_call cfg CALL_CALLOC fl ln [wrap cfg (num * sz); r] s1)
      as [[[] s2]|] eqn:Elog; [|discriminate Hexec].
    injection Hexec as <-.
    eapply __watchdog_log_call_consistent; [|exact Elog].
    eapply __watchdog_allocate_consistent; eauto.
  - destruct (__watchdog_reallocate cfg ptr sz fl ln raw s0) as [[r s1]|] eqn:Eop;
      [|discriminate Hexec].
    destruct (__watchdog_log_call cfg CALL_REALLOC fl ln [sz; ptr; r] s1)
      as [[[] s2]|] eqn:Elog; [|discriminate Hexec].
    injection Hexec as <-.
    eapply __watchdog_log_call_consistent; [|exact Elog].
    eapply __watchdog_reallocate_consistent; eauto.
  - destruct (__watchdog_free cfg ptr fl ln s0) as [[r s1]|] eqn:Eop;
      [|discriminate Hexec].
    eapply __watchdog_log_call_consistent; [|exact Hexec].
    eapply __watchdog_free_consistent; eauto.
Qed.

Lemma reachable_consistent (s : state) : reachable cfg s -> consistent cfg s.
Proof.
  induction 1 as [|c s s' _ IH Hok Hexec].
  - apply initial_state_consistent.
  - by eapply exec_consistent.
Qed.

End Invariant.

(** ** The collector *)

Section Collection.

Variable cfg : config.

Local Abbreviation sizeof_chunk_t := (chunk_header_bytes cfg).

Lemma collect_info_eq f p (s : state) :
  collect_info cfg (Some f) p s =
    match infos s !! p with
    | Some i =>
        match chain_back (trace_list i) with
        | Some t =>
            if allocated i then
              match __watchdog_free cfg (address i) "<garbage collector>" 0
                      (logged f (gc_messages (Some i)) s) with
              | Ok (_, s1) =>
                  Ok (tt, set_bytes_collected (wrap cfg (__bytes_collected s1 + size t)) s1)
              | Fault e => Fault e
              end
            else Ok (tt, s)
        | None => Fault AssertionFailed
        end
    | None => Fault InvalidAccess
    end.
Proof.
  unfold collect_info, load_info, back_trace, fprintf, logged, gc_messages.
  unfold bind at 1 2, gets, modify, ret, fail. simpl.
  destruct (infos s !! p) as [i|]; simpl; [|done].
  destruct (chain_back (trace_list i)) as [t|]; simpl; [|done].
  destruct (allocated i); simpl; [|done].
  unfold bind. simpl. rewrite <- app_assoc. simpl.
  by destruct (__watchdog_free _ _ _ _ _) as [[? ?]|].
Qed.

(** On a live record the collector takes the path of a release. *)
Lemma collect_info_live f p i t n (s : state) :
  infos s !! p = Some i -> chain_back (trace_list i) = Some t ->
  allocated i = true ->
  heap s !! (address i - sizeof_chunk_t) = Some (mk_block n (Some (mk_chunk p))) ->
  collect_info cfg (Some f) p s = Ok (tt, collected_state cfg f p i t s).
Proof.
  intros Hi Ht Ha Hh. rewrite collect_info_eq, Hi, Ht, Ha.
  rewrite __watchdog_free_eq. simpl. rewrite Hh. simpl. rewrite Hi, Ht.
  unfold collected_state, gc_messages. by rewrite Ht.
Qed.

Lemma collect_info_skipped f p i t (s : state) :
  infos s !! p = Some i -> chain_back (trace_list i) = Some t ->
  allocated i = false ->
  collect_info cfg (Some f) p s = Ok (tt, s).
Proof. intros Hi Ht Ha. by rewrite collect_info_eq, Hi, Ht, Ha. Qed.

Lemma collected_info_idle i : allocated i = false -> collected_info i = i.
Proof. intros H. unfold collected_info. by rewrite H. Qed.

Lemma collected_info_live i :
  allocated i = true -> collected_info i = released_info i "<garbage collector>" 0.
Proof. intros H. unfold collected_info. by rewrite H. Qed.

Lemma live_count_allocated i : allocated i = true -> live_count (Some i) = 1.
Proof. intros H. unfold live_count. by rewrite H. Qed.

Lemma gc_report_insert_notin (m : gmap nat info_t) (l : list nat) p i :
  p ∉ l -> gc_report (<[p := i]> m) l = gc_report m l.
Proof.
  unfold gc_report. induction l as [|q l IH]; simpl; [done|].
  intros Hp. apply not_elem_of_cons in Hp as [Hne Hp].
  rewrite lookup_insert_ne by done. by rewrite IH.
Qed.

(** The loop of the collector runs to its end, and leaves every record it
    visited released. *)
Lemma collect_loop f (l : list nat) :
  forall s : state, collectable cfg s l ->
    exists s', for_each (collect_info cfg (Some f)) l s = Ok (tt, s') /\
               collected cfg f l s s'.
Proof.
  induction l as [|p l IH]; intros s (Hnd & (Hwf & Hwb & Hwc) & Hl).
  - exists s. split; [done|]. unfold collected, gc_report. simpl.
    rewrite !Z.add_0_r, app_nil_r, Hwf, Hwb, Hwc.
    repeat split; try done. intros p i Hp. by apply elem_of_nil in Hp.
  - apply NoDup_cons in Hnd as [Hp Hnd].
    destruct (Hl p) as (i & t & Hi & Ht & Hlive); [by left|].
    destruct (allocated i) eqn:Ha.
    + destruct (Hlive eq_refl) as [n Hh].
      set (s1 := collected_state cfg f p i t s).
      assert (H1 : collectable cfg s1 l).
      { split; [done|]. split; [by simpl; rewrite !wrap_wrap|].
        intros q Hq. assert (Hne : p ≠ q) by (by intros ->).
        destruct (Hl q) as (j & u & Hj & Hu & Hlivej); [by right|].
        exists j, u. simpl. rewrite lookup_insert_ne by done.
        repeat split; try done. intros Haj.
        destruct (Hlivej Haj) as [m Hm]. exists m.
        rewrite lookup_delete_ne; [done|].
        intros Heq. rewrite Heq, Hm in Hh. by injection Hh as _ ->. }
      destruct (IH s1 H1) as (s' & Hrun & Hq & Hsub & Hgone & Hf & Hb & Hc & Ho & Hrest).
      exists s'. split.
      { simpl. unfold bind. by rewrite (collect_info_live f p i t n s Hi Ht Ha Hh). }
      unfold collected, gc_report. simpl.
      rewrite Hi, (live_size_allocated _ _ Ht Ha), (live_count_allocated _ Ha).
      split; [|split; [|split]].
      * intros q. rewrite Hq. simpl.
        destruct (decide (p = q)) as [<-|Hne].
        -- rewrite decide_False, decide_True, lookup_insert_eq, Hi by (done || by left).
           simpl. by rewrite collected_info_live.
        -- rewrite lookup_insert_ne by done.
           destruct (decide (q ∈ l)) as [Hin|Hnin].
           ++ rewrite decide_True; [done|by right].
           ++ rewrite decide_False; [done|].
              by intros [->|?]%elem_of_cons.
      * intros c b Hcb. apply Hsub in Hcb. simpl in Hcb.
        by apply lookup_delete_Some in Hcb as [_ ?].
      * intros q j [->|Hq']%elem_of_cons Hj Haj.
        -- rewrite Hi in Hj. injection Hj as <-.
           destruct (heap s' !! (address i - sizeof_chunk_t)) as [b|] eqn:Hb'; [|done].
           apply Hsub in Hb'. simpl in Hb'. by rewrite lookup_delete_eq in Hb'.
        -- assert (Hne : p ≠ q) by (by intros ->).
           apply (Hgone q j Hq'); [|done]. simpl. by rewrite lookup_insert_ne.
      * simpl in Hf, Hb, Hc, Ho, Hrest.
        rewrite sum_over_insert_notin in Hf, Hb, Hc by done.
        rewrite Hf, Hb, Hc, Ho, gc_report_insert_notin by done.
        unfold gc_report.
        rewrite !wrap_add_l, !Z.add_assoc, map_app, <- app_assoc.
        repeat split; try apply Hrest.
    + assert (H1 : collectable cfg s l).
      { split; [done|]. split; [done|]. intros q Hq. apply Hl. by right. }
      destruct (IH s H1) as (s' & Hrun & Hq & Hsub & Hgone & Hf & Hb & Hc & Ho & Hrest).
      exists s'. split.
      { simpl. unfold bind. by rewrite (collect_info_skipped f p i t s Hi Ht Ha). }
      unfold collected, gc_report. simpl.
      unfold gc_messages, live_size, live_count. rewrite Hi, Ht, Ha. simpl.
      split; [|split; [|split]]; try done.
      * intros q. rewrite Hq.
        destruct (decide (p = q)) as [<-|Hne].
        -- rewrite decide_False, decide_True, Hi by (done || by left).
           simpl. by rewrite collected_info_idle.
        -- destruct (decide (q ∈ l)) as [Hin|Hnin].
           ++ rewrite decide_True; [done|by right].
           ++ rewrite decide_False; [done|].
              by intros [->|?]%elem_of_cons.
      * intros q j [->|Hq']%elem_of_cons Hj Haj.
        -- rewrite Hi in Hj. injection Hj as <-. congruence.
        -- by apply (Hgone q j Hq').
Qed.

Lemma consistent_collectable f ms (s : state) :
  consistent cfg s -> collectable cfg (logged f ms s) (tracked s).
Proof.
  intros Hc. split; [apply (cons_nodup _ _ Hc)|]. split.
  - destruct (cons_wrapped _ _ Hc) as (_ & ? & _ & ? & ?). done.
  - intros p Hp. apply (cons_registered _ _ Hc) in Hp as [i Hi].
    destruct (cons_traced _ _ Hc _ _ Hi) as [t Ht].
    exists i, t. repeat split; try done.
    intros Ha. apply (cons_live _ _ Hc _ _ Hi Ha).
Qed.

(** With collection enabled, [__watchdog_collect] announces itself, runs its
    loop over the whole registry, and prints the total. *)
Lemma __watchdog_collect_runs (s : state) :
  consistent cfg s -> __initialized s = true -> gc_flag cfg ≠ 0 ->
  exists f s1,
    __stream s = Some f /\
    collected cfg f (tracked s) (logged f [msg_gc] s) s1 /\
    __watchdog_collect cfg s
      = Ok (tt, logged f [msg_gc_collected (__bytes_collected s1)] s1).
Proof.
  intros Hc Hinit Hgc.
  pose proof (cons_init _ _ Hc) as Hi. rewrite Hinit in Hi.
  destruct Hi as ([l Hl] & [f Hf] & _).
  destruct (collect_loop f (tracked s) _ (consistent_collectable f [msg_gc] s Hc))
    as (s1 & Hrun & Hcol).
  exists f, s1. split; [done|]. split; [done|].
  unfold __watchdog_collect, registry, chain_iterate, fprintf.
  unfold bind, gets, modify, assert, ret, fail. simpl.
  rewrite Hinit. simpl.
  apply Z.eqb_neq in Hgc. rewrite Hgc, Hf. simpl. rewrite Hl. simpl.
  unfold tracked in Hrun. rewrite Hl in Hrun. simpl in Hrun.
  unfold logged in Hrun. simpl in Hrun. by rewrite Hrun.
Qed.

End Collection.

(** ** Runs *)

Lemma bind_ret_tt (m : M unit) (s : state) : (m ;; ret tt) s = m s.
Proof. unfold bind, ret. by destruct (m s) as [[[] ?]|]. Qed.

Lemma run_reachable (cfg : config) (calls : list call) :
  forall s s', reachable cfg s -> run_ok cfg calls s ->
    run cfg calls s = Ok (tt, s') -> reachable cfg s'.
Proof.
  unfold run. induction calls as [|c calls IH]; simpl; intros s s' Hs Hok Hrun.
  - by injection Hrun as <-.
  - destruct Hok as [Hc Hok]. unfold bind in Hrun.
    destruct (exec cfg c s) as [[[] s1]|] eqn:Hexec; [|done].
    apply (IH s1 s'); [|done|done].
    by apply (reachable_step cfg c s s1).
Qed.

Lemma demo_allocated_reachable : reachable cfg64 demo_allocated.
Proof.
  apply (run_reachable cfg64 demo_calls_allocated initial_state).
  - apply reachable_initial.
  - vm_compute. intuition.
  - vm_compute. reflexivity.
Qed.

Lemma demo_leak_reachable : reachable cfg64 demo_leak.
Proof.
  apply (run_reachable cfg64 demo_calls_leak initial_state).
  - apply reachable_initial.
  - vm_compute. intuition.
  - vm_compute. reflexivity.
Qed.

(** * The claims *)

(** ** C1: order of the exit-time hooks *)

(** C1, as stated, fails.  After initialisation in the concrete environment
    the hooks are registered in the order terminate, report, collect, but
    [exit] does not run report, then collect, then terminate. *)
Lemma exit_order_counterexample :
  exists s0,
    __watchdog_initialize cfg64 initial_state = Ok (tt, s0) /\
    atexit_table s0 = [hook_terminate; hook_report; hook_collect] /\
    rev (atexit_table s0) <> [hook_report; hook_collect; hook_terminate] /\
    exit cfg64 0 s0
      <> (__watchdog_report cfg64 ;; __watchdog_collect cfg64 ;;
          __watchdog_terminate) s0.
Proof.
  eexists. split; [vm_compute; reflexivity|].
  split; [reflexivity|]. split; [discriminate|].
  vm_compute. discriminate.
Qed.

(** C1, amended: at initialisation the three hooks are registered in the
    order terminate, report, collect; since [exit] calls the registered
    functions in reverse order of registration, at every later point of a
    run an exit executes collect, then report, then terminate. *)
Theorem exit_hooks_order (cfg : config) (f : FILE) :
  selected_stream cfg = Some f ->
  exists s0,
    __watchdog_initialize cfg initial_state = Ok (tt, s0) /\
    atexit_table s0 = [hook_terminate; hook_report; hook_collect] /\
    forall (s : state) (status : Z),
      reachable cfg s -> __initialized s = true ->
      atexit_table s = [hook_terminate; hook_report; hook_collect] /\
      exit cfg status s
        = (__watchdog_collect cfg ;; __watchdog_report cfg ;;
           __watchdog_terminate) s.
Proof.
  intros Hf. exists (initialized_state f initial_state).
  split; [by rewrite __watchdog_initialize_eq; simpl; rewrite Hf|].
  split; [done|].
  intros s status Hs Hinit.
  pose proof (cons_init _ _ (reachable_consistent _ _ Hs)) as Hi.
  rewrite Hinit in Hi. destruct Hi as (_ & _ & Htable).
  split; [done|].
  unfold exit. unfold bind at 1, gets. rewrite Htable. simpl.
  unfold bind at 1 4.
  destruct (__watchdog_collect cfg s) as [[[] s1]|]; [|done].
  unfold bind at 1 3.
  destruct (__watchdog_report cfg s1) as [[[] s2]|]; [|done].
  apply bind_ret_tt.
Qed.

Lemma exit_hooks_order_witness :
  selected_stream cfg64 = Some stdout /\
  exists s0,
    __watchdog_initialize cfg64 initial_state = Ok (tt, s0) /\
    atexit_table s0 = [hook_terminate; hook_report; hook_collect] /\
    forall (s : state) (status : Z),
      reachable cfg64 s -> __initialized s = true ->
      atexit_table s = [hook_terminate; hook_report; hook_collect] /\
      exit cfg64 status s
        = (__watchdog_collect cfg64 ;; __watchdog_report cfg64 ;;
           __watchdog_terminate) s.
Proof.
  split; [reflexivity|]. apply (exit_hooks_order cfg64 stdout). reflexivity.
Defined.

(** In the concrete run the collector speaks before the report does, the
    report already counts the 50 collected bytes, and the tracker terminates
    last. *)
Example exit_demo :
  exists s' before between,
    exit cfg64 0 demo_leak = Ok (tt, s') /\
    output s' = output demo_leak ++ (stdout, msg_gc) :: before ++
                  (stdout, msg_report) :: between ++
                  [(stdout, msg_report_bytes 400 400 50); (stdout, msg_terminated)].
Proof.
  eexists _, [_; _; _], [_; _; _; _; _; _; _; _]. split; vm_compute; reflexivity.
Qed.

(** ** C2: the byte counters and what is live *)



(** In the concrete run 400 bytes were allocated and 350 freed, and the one
    live chunk has 50 bytes. *)
Example bytes_balance_demo :
  __bytes_allocated demo_leak = 400 /\ __bytes_freed demo_leak = 350 /\
  live_bytes demo_leak = 50.
Proof. by vm_compute. Qed.

(** The scenario of the spec: 100 bytes allocated, resized to 250 and
    released leave one record with three traces in the registry, and 1
    allocation, 1 free, 350 bytes allocated and 350 bytes freed counted. *)
Example scenario_end_to_end :
  exists s,
    run cfg64 [call_malloc 100 "fileA" 10 4096;
               call_realloc 4104 250 "fileA" 20 8192;
               call_free 8200 "fileA" 30] initial_state = Ok (tt, s) /\
    __info_list s = Some [0%nat] /\
    infos s !! 0%nat
      = Some {| trace_list := [mk_trace "fileA" 10 100 CALL_MALLOC;
                               mk_trace "fileA" 20 250 CALL_REALLOC;
                               mk_trace "fileA" 30 0 CALL_FREE];
                address := 8200; allocated := false |} /\
    (__allocations_counter s, __frees_counter s) = (1, 1) /\
    (__bytes_allocated s, __bytes_freed s) = (350, 350) /\
    live_bytes s = 0.
Proof. eexists. vm_compute. repeat split; reflexivity. Qed.

(** ** C3: releasing [NULL] *)

(** C3: a defect of the code.  The claim states the contract of [free],
    whose place [_watchdog_free] takes in a client: releasing [NULL] is
    harmless.  The code does not keep it.  With one chunk live,
    [_watchdog_free(NULL, ...)] steps one header below [NULL] and reads
    [chunk->info] there, where no block lives; the sibling
    [alligator_free_], at the same pointer and in the same state, returns
    and leaves the state as it is. *)
Theorem release_null_faults :
  _watchdog_free cfg64 NULL "fileA" 40 demo_allocated = Fault InvalidAccess /\
  Alligator.alligator_free_ NULL "fileA" 40 demo_allocated = Ok (tt, demo_allocated).
Proof. split; vm_compute; reflexivity. Qed.

(** What the code as it is written does with the pointer of a release, at
    every point of a run: the release returns exactly when a registered
    record marked allocated has that pointer as its address, and with
    [NULL] it never returns: the defect above is there at every point of a
    run. *)
Theorem release_returns_iff_live (cfg : config) (s : state) (ptr : pointer)
    (file : string) (line : Z) :
  0 < chunk_header_bytes cfg ->
  reachable cfg s ->
  ((exists s', _watchdog_free cfg ptr file line s = Ok (tt, s')) <->
   (exists p i, p ∈ tracked s /\ infos s !! p = Some i /\
                allocated i = true /\ address i = ptr)) /\
  (forall s', _watchdog_free cfg NULL file line s <> Ok (tt, s')).
Proof.
  intros Hhdr Hs. pose proof (reachable_consistent _ _ Hs) as Hc.
  assert (Hiff : forall q,
    (exists s', _watchdog_free cfg q file line s = Ok (tt, s')) <->
    (exists p i, p ∈ tracked s /\ infos s !! p = Some i /\
                 allocated i = true /\ address i = q)).
  { intros q. pose proof (cons_init _ _ Hc) as Hinit.
    unfold _watchdog_free, bind. rewrite __watchdog_initialize_eq.
    destruct (__initialized s) eqn:Hi.
    - rewrite __watchdog_free_eq. split.
      + intros [s' Hrun].
        destruct (heap s !! (q - chunk_header_bytes cfg)) as [[n [c|]]|] eqn:Hh;
          try done.
        destruct (live_block _ _ _ _ _ Hc Hh) as (i & t & Hinfo & _ & Ha & Haddr & Hin & _).
        exists (info c), i. repeat split; try done. lia.
      + intros (p & i & Hin & Hinfo & Ha & <-).
        destruct (cons_live _ _ Hc _ _ Hinfo Ha) as [n Hh].
        destruct (cons_traced _ _ Hc _ _ Hinfo) as [t Ht].
        destruct Hinit as (_ & [f Hf] & _).
        rewrite Hh. simpl. rewrite Hinfo, Ht.
        rewrite __watchdog_log_call_eq. simpl. rewrite Hi, Hf.
        destruct (verbose_flag cfg =? 0); eauto.
    - rewrite Hinit. split.
      + intros [s' Hrun]. exfalso.
        destruct (selected_stream cfg) as [f|]; [|done].
        by rewrite __watchdog_free_eq in Hrun.
      + intros (p & i & _ & Hinfo & _). cbn [infos initial_state] in Hinfo.
        by rewrite lookup_empty in Hinfo. }
  split; [apply Hiff|].
  intros s' Hrun.
  destruct (proj1 (Hiff NULL)) as (p & i & _ & Hinfo & Ha & Haddr); [eauto|].
  destruct (cons_live _ _ Hc _ _ Hinfo Ha) as [n Hh].
  apply (cons_heap _ _ Hc) in Hh as [Hpos _].
  rewrite Haddr in Hpos. unfold NULL in Hpos. lia.
Qed.

Lemma release_returns_iff_live_witness :
  0 < chunk_header_bytes cfg64 /\
  reachable cfg64 demo_allocated /\
  ((exists s', _watchdog_free cfg64 4104 "fileA" 30 demo_allocated = Ok (tt, s')) <->
   (exists p i, p ∈ tracked demo_allocated /\ infos demo_allocated !! p = Some i /\
                allocated i = true /\ address i = 4104)) /\
  (forall s', _watchdog_free cfg64 NULL "fileA" 30 demo_allocated <> Ok (tt, s')).
Proof.
  split; [reflexivity|]. split; [exact demo_allocated_reachable|].
  apply (release_returns_iff_live cfg64 demo_allocated 4104 "fileA" 30).
  - reflexivity.
  - exact demo_allocated_reachable.
Defined.

(** ** C4: a successful resize *)

(** C4: when the raw resize of a tracked chunk of recorded size
    [size t] to [size] bytes succeeds, [__bytes_allocated] grows by [size]
    and [__bytes_freed] by [size t] (in [size_t] arithmetic), the registry
    and the other counters are as before, and the chunk's one record now
    carries the new address and one more trace, of kind REALLOC and of the
    new size. *)
Theorem resize_success (cfg : config) (s : state) (ptr : pointer)
    (p : info_ptr) (i : info_t) (t : trace_t) (size : Z) (file : string)
    (line : Z) (raw : pointer) :
  tracks cfg s ptr p i t ->
  raw <> NULL ->
  exists s',
    __watchdog_reallocate cfg ptr size file line raw s
      = Ok (raw + chunk_header_bytes cfg, s') /\
    __bytes_allocated s' = wrap cfg (__bytes_allocated s + size) /\
    __bytes_freed s' = wrap cfg (__bytes_freed s + Trace.size t) /\
    __allocations_counter s' = __allocations_counter s /\
    __frees_counter s' = __frees_counter s /\
    __info_list s' = __info_list s /\
    next_info s' = next_info s /\
    infos s' = <[p := {| trace_list := trace_list i ++ [mk_trace file line size CALL_REALLOC];
                         address := raw + chunk_header_bytes cfg;
                         allocated := true |}]> (infos s) /\
    forall i', infos s' !! p = Some i' ->
               length (trace_list i') = S (length (trace_list i)).
Proof.
  intros ([n Hh] & Hi & Ht) Hraw.
  eexists. rewrite __watchdog_reallocate_eq, Hh. simpl. rewrite Hi, Ht.
  apply Z.eqb_neq in Hraw. rewrite Hraw.
  split; [reflexivity|]. simpl. repeat split.
  intros i'. rewrite lookup_insert_eq. intros [= <-]. simpl.
  rewrite length_app. simpl. lia.
Qed.

Lemma resize_success_witness :
  tracks cfg64 demo_allocated 4104 0%nat
    {| trace_list := [mk_trace "fileA" 10 100 CALL_MALLOC];
       address := 4104; allocated := true |}
    (mk_trace "fileA" 10 100 CALL_MALLOC) /\
  8192 <> NULL /\
  exists s',
    __watchdog_reallocate cfg64 4104 250 "fileA" 20 8192 demo_allocated
      = Ok (8192 + chunk_header_bytes cfg64, s') /\
    __bytes_allocated s' = wrap cfg64 (__bytes_allocated demo_allocated + 250) /\
    __bytes_freed s' = wrap cfg64 (__bytes_freed demo_allocated + 100).
Proof.
  assert (Ht : tracks cfg64 demo_allocated 4104 0%nat
    {| trace_list := [mk_trace "fileA" 10 100 CALL_MALLOC];
       address := 4104; allocated := true |}
    (mk_trace "fileA" 10 100 CALL_MALLOC)).
  { split; [by exists 108|]. split; reflexivity. }
  split; [exact Ht|]. split; [discriminate|].
  destruct (resize_success cfg64 demo_allocated 4104 0%nat _ _ 250 "fileA" 20 8192 Ht)
    as (s' & Hrun & Hba & Hbf & _); [discriminate|].
  exists s'. repeat split; assumption.
Defined.

(** After one allocation and one resize the record has two traces, the
    last one of kind REALLOC and of the new size. *)
Example resize_two_traces :
  exists s' i',
    __watchdog_reallocate cfg64 4104 250 "fileA" 20 8192 demo_allocated
      = Ok (8200, s') /\
    infos s' !! 0%nat = Some i' /\
    trace_list i' = [mk_trace "fileA" 10 100 CALL_MALLOC;
                     mk_trace "fileA" 20 250 CALL_REALLOC] /\
    __info_list s' = Some [0%nat] /\
    __bytes_allocated s' = 350 /\ __bytes_freed s' = 100.
Proof. eexists _, _. vm_compute. repeat split; reflexivity. Qed.

(** ** C5, C7: failures of the system allocator *)

Lemma same_bookkeeping_refl (s : state) : same_bookkeeping s s.
Proof. by repeat split. Qed.

Lemma same_bookkeeping_trans (s1 s2 s3 : state) :
  same_bookkeeping s1 s2 -> same_bookkeeping s2 s3 -> same_bookkeeping s1 s3.
Proof.
  unfold same_bookkeeping.
  intros (? & ? & ? & ? & ? & ? & ? & ? & ?) (? & ? & ? & ? & ? & ? & ? & ? & ?).
  repeat split; congruence.
Qed.

(** Initialisation, when it returns, has set up the registry and the
    stream, and has not touched the bookkeeping. *)
Lemma __watchdog_initialize_bookkeeping (cfg : config) (s s0 : state) :
  consistent cfg s ->
  __watchdog_initialize cfg s = Ok (tt, s0) ->
  same_bookkeeping s s0 /\ consistent cfg s0 /\ __initialized s0 = true /\
  exists l f, __info_list s0 = Some l /\ __stream s0 = Some f.
Proof.
  intros Hc Hrun.
  destruct (__watchdog_initialize_consistent _ _ _ Hc Hrun) as (Hc0 & Hi0 & _).
  pose proof (cons_init _ _ Hc0) as Hinit. rewrite Hi0 in Hinit.
  destruct Hinit as ([l Hl] & [f Hf] & _).
  split; [|by eauto 6].
  rewrite __watchdog_initialize_eq in Hrun.
  pose proof (cons_init _ _ Hc) as Hs.
  destruct (__initialized s); [injection Hrun as <-; apply same_bookkeeping_refl|].
  destruct (selected_stream cfg); [|done].
  injection Hrun as <-. rewrite Hs. by repeat split.
Qed.

(** Logging a call, when it returns, has not touched the bookkeeping. *)
Lemma __watchdog_log_call_bookkeeping (cfg : config) call file line args
    (s s' : state) :
  __watchdog_log_call cfg call file line args s = Ok (tt, s') ->
  same_bookkeeping s s' /\ __info_list s' = __info_list s.
Proof.
  rewrite __watchdog_log_call_eq. repeat case_match; try done;
    by intros [= <-].
Qed.

(** Logging a call returns in an initialised state with a stream, for the
    argument lists the protected functions pass. *)
Lemma __watchdog_log_call_returns (cfg : config) call file line args ms f
    (s : state) :
  __initialized s = true -> __stream s = Some f ->
  log_messages call file line args = Some ms ->
  exists s', __watchdog_log_call cfg call file line args s = Ok (tt, s').
Proof.
  intros Hi Hf Hms. rewrite __watchdog_log_call_eq, Hi, Hf, Hms.
  destruct (verbose_flag cfg =? 0); eauto.
Qed.

(** C5: when the raw resize of a tracked chunk fails, the internal function
    returns [NULL] and leaves the whole state as it was; the protected
    function returns [NULL] too, and at most prints: the record of the chunk
    (its address, flag and trace log), the registry, the live blocks and the
    counters are as before. *)
Theorem resize_failure (cfg : config) (s : state) (ptr : pointer)
    (p : info_ptr) (i : info_t) (t : trace_t) (size : Z) (file : string)
    (line : Z) :
  reachable cfg s ->
  tracks cfg s ptr p i t ->
  __watchdog_reallocate cfg ptr size file line NULL s = Ok (NULL, s) /\
  exists s',
    _watchdog_realloc cfg ptr size file line NULL s = Ok (NULL, s') /\
    same_bookkeeping s s' /\ __info_list s' = __info_list s /\
    infos s' !! p = Some i.
Proof.
  intros Hs ([n Hh] & Hi & Ht).
  pose proof (reachable_consistent _ _ Hs) as Hc.
  assert (Hrun : __watchdog_reallocate cfg ptr size file line NULL s = Ok (NULL, s)).
  { rewrite __watchdog_reallocate_eq, Hh. simpl. by rewrite Hi, Ht. }
  split; [done|].
  pose proof (cons_init _ _ Hc) as Hinit.
  destruct (__initialized s) eqn:Hini;
    [|by rewrite Hinit in Hi; cbn [infos initial_state] in Hi;
         rewrite lookup_empty in Hi].
  destruct Hinit as (_ & [f Hf] & _).
  unfold _watchdog_realloc, bind.
  rewrite __watchdog_initialize_eq, Hini, Hrun.
  destruct (__watchdog_log_call_returns cfg CALL_REALLOC file line
              [size; ptr; NULL] _ f s Hini Hf eq_refl) as [s' Hlog].
  rewrite Hlog. exists s'.
  destruct (__watchdog_log_call_bookkeeping _ _ _ _ _ _ _ Hlog) as [Hsame Hl].
  repeat split; try done; try apply Hsame.
  destruct Hsame as (-> & _). done.
Qed.

Lemma resize_failure_witness :
  reachable cfg64 demo_allocated /\
  tracks cfg64 demo_allocated 4104 0%nat
    {| trace_list := [mk_trace "fileA" 10 100 CALL_MALLOC];
       address := 4104; allocated := true |}
    (mk_trace "fileA" 10 100 CALL_MALLOC) /\
  __watchdog_reallocate cfg64 4104 250 "fileA" 20 NULL demo_allocated
    = Ok (NULL, demo_allocated).
Proof.
  assert (Ht : tracks cfg64 demo_allocated 4104 0%nat
    {| trace_list := [mk_trace "fileA" 10 100 CALL_MALLOC];
       address := 4104; allocated := true |}
    (mk_trace "fileA" 10 100 CALL_MALLOC)).
  { split; [by exists 108|]. split; reflexivity. }
  split; [exact demo_allocated_reachable|]. split; [exact Ht|].
  exact (proj1 (resize_failure cfg64 demo_allocated 4104 0%nat _ _ 250 "fileA" 20
                  demo_allocated_reachable Ht)).
Defined.

(** C7: when the raw allocation fails, the internal function returns [NULL]
    and leaves the whole state as it was, whether it was to clear the chunk
    or not; the two protected functions return [NULL] too, and, next to the
    initialisation a first call performs and to what they print, leave the
    records, the registry, the live blocks and the counters as before. *)
Theorem allocation_failure (cfg : config) (s s0 : state) (num size : Z)
    (file : string) (line : Z) :
  reachable cfg s ->
  __watchdog_initialize cfg s = Ok (tt, s0) ->
  (forall clear, __watchdog_allocate cfg size clear file line NULL s0 = Ok (NULL, s0)) /\
  (exists s', _watchdog_malloc cfg size file line NULL s = Ok (NULL, s') /\
              same_bookkeeping s s') /\
  (exists s', _watchdog_calloc cfg num size file line NULL s = Ok (NULL, s') /\
              same_bookkeeping s s').
Proof.
  intros Hs Hinit.
  pose proof (reachable_consistent _ _ Hs) as Hc.
  destruct (__watchdog_initialize_bookkeeping _ _ _ Hc Hinit)
    as (Hsame & _ & Hi0 & l & f & _ & Hf).
  assert (Hrun : forall sz clear,
            __watchdog_allocate cfg sz clear file line NULL s0 = Ok (NULL, s0)).
  { intros sz clear. by rewrite __watchdog_allocate_eq. }
  split; [apply Hrun|]. split.
  - unfold _watchdog_malloc, bind. rewrite Hinit, Hrun.
    destruct (__watchdog_log_call_returns cfg CALL_MALLOC file line
                [size; NULL] _ f s0 Hi0 Hf eq_refl) as [s' Hlog].
    rewrite Hlog. exists s'. split; [done|].
    apply (same_bookkeeping_trans _ _ _ Hsame).
    apply (__watchdog_log_call_bookkeeping _ _ _ _ _ _ _ Hlog).
  - unfold _watchdog_calloc, bind. rewrite Hinit, Hrun.
    destruct (__watchdog_log_call_returns cfg CALL_CALLOC file line
                [wrap cfg (num * size); NULL] _ f s0 Hi0 Hf eq_refl) as [s' Hlog].
    rewrite Hlog. exists s'. split; [done|].
    apply (same_bookkeeping_trans _ _ _ Hsame).
    apply (__watchdog_log_call_bookkeeping _ _ _ _ _ _ _ Hlog).
Qed.

Lemma allocation_failure_witness :
  reachable cfg64 demo_allocated /\
  __watchdog_initialize cfg64 demo_allocated = Ok (tt, demo_allocated) /\
  (exists s', _watchdog_malloc cfg64 64 "fileA" 50 NULL demo_allocated = Ok (NULL, s') /\
              same_bookkeeping demo_allocated s') /\
  (exists s', _watchdog_calloc cfg64 8 64 "fileA" 50 NULL demo_allocated = Ok (NULL, s') /\
              same_bookkeeping demo_allocated s').
Proof.
  split; [exact demo_allocated_reachable|]. split; [reflexivity|].
  exact (proj2 (allocation_failure cfg64 demo_allocated demo_allocated 8 64 "fileA" 50
                  demo_allocated_reachable eq_refl)).
Defined.

(** ** C6: the effect of a release *)

(** C6: releasing a tracked chunk returns the size of the last trace its
    record had, appends to the record one trace of kind FREE and of size 0,
    marks the record as not allocated, adds 1 to [__frees_counter] and the
    returned size to [__bytes_freed] (in [size_t] arithmetic), and gives the
    raw block back; the registry and the other counters are as before. *)
Theorem release_effect (cfg : config) (s : state) (ptr : pointer)
    (p : info_ptr) (i : info_t) (t : trace_t) (file : string) (line : Z) :
  tracks cfg s ptr p i t ->
  exists s',
    __watchdog_free cfg ptr file line s = Ok (size t, s') /\
    infos s' = <[p := {| trace_list := trace_list i ++ [mk_trace file line 0 CALL_FREE];
                         address := address i;
                         allocated := false |}]> (infos s) /\
    __frees_counter s' = wrap cfg (__frees_counter s + 1) /\
    __bytes_freed s' = wrap cfg (__bytes_freed s + size t) /\
    heap s' = delete (ptr - chunk_header_bytes cfg) (heap s) /\
    __info_list s' = __info_list s /\
    __allocations_counter s' = __allocations_counter s /\
    __bytes_allocated s' = __bytes_allocated s /\
    __bytes_collected s' = __bytes_collected s.
Proof.
  intros ([n Hh] & Hi & Ht).
  eexists. rewrite __watchdog_free_eq, Hh. simpl. rewrite Hi, Ht.
  split; [reflexivity|]. simpl. by repeat split.
Qed.

Lemma release_effect_witness :
  tracks cfg64 demo_allocated 4104 0%nat
    {| trace_list := [mk_trace "fileA" 10 100 CALL_MALLOC];
       address := 4104; allocated := true |}
    (mk_trace "fileA" 10 100 CALL_MALLOC) /\
  exists s',
    __watchdog_free cfg64 4104 "fileA" 30 demo_allocated = Ok (100, s') /\
    __frees_counter s' = wrap cfg64 (__frees_counter demo_allocated + 1) /\
    __bytes_freed s' = wrap cfg64 (__bytes_freed demo_allocated + 100).
Proof.
  assert (Ht : tracks cfg64 demo_allocated 4104 0%nat
    {| trace_list := [mk_trace "fileA" 10 100 CALL_MALLOC];
       address := 4104; allocated := true |}
    (mk_trace "fileA" 10 100 CALL_MALLOC)).
  { split; [by exists 108|]. split; reflexivity. }
  split; [exact Ht|].
  destruct (release_effect cfg64 demo_allocated 4104 0%nat _ _ "fileA" 30 Ht)
    as (s' & Hrun & _ & Hf & Hb & _).
  exists s'. repeat split; assumption.
Defined.

(** ** C9: the size a zero-allocation asks for *)

(** C9: [_watchdog_calloc(num, size)] asks the internal allocation function
    for the product [num * size] reduced modulo [2 ^ w], with no overflow
    check; when the raw allocation succeeds, the raw block has that many
    bytes after its header, the one trace of the new record is of kind
    CALLOC and of that size, and [__bytes_allocated] grows by it. *)
Theorem zero_allocate_size (cfg : config) (s s0 : state) (num size : Z)
    (file : string) (line : Z) (raw : pointer) :
  reachable cfg s ->
  __watchdog_initialize cfg s = Ok (tt, s0) ->
  raw <> NULL ->
  exists s',
    _watchdog_calloc cfg num size file line raw s
      = Ok (raw + chunk_header_bytes cfg, s') /\
    heap s' !! raw
      = Some (mk_block (wrap cfg (chunk_header_bytes cfg + wrap cfg (num * size)))
                (Some (mk_chunk (next_info s)))) /\
    infos s' !! next_info s
      = Some {| trace_list := [mk_trace file line (wrap cfg (num * size)) CALL_CALLOC];
                address := raw + chunk_header_bytes cfg;
                allocated := true |} /\
    tracked s' = tracked s ++ [next_info s] /\
    __bytes_allocated s' = wrap cfg (__bytes_allocated s + wrap cfg (num * size)) /\
    __allocations_counter s' = wrap cfg (__allocations_counter s + 1).
Proof.
  intros Hs Hinit Hraw.
  pose proof (reachable_consistent _ _ Hs) as Hc.
  destruct (__watchdog_initialize_bookkeeping _ _ _ Hc Hinit)
    as (Hsame & _ & Hi0 & l & f & Hl & Hf).
  destruct Hsame as (_ & Htr & _ & Hnext & Hac & _ & Hba & _).
  unfold _watchdog_calloc, bind. rewrite Hinit, __watchdog_allocate_eq.
  apply Z.eqb_neq in Hraw. rewrite Hraw, Hl.
  set (s1 := allocated_state cfg (wrap cfg (num * size)) true file line raw l s0).
  destruct (__watchdog_log_call_returns cfg CALL_CALLOC file line
              [wrap cfg (num * size); raw + chunk_header_bytes cfg] _ f s1 Hi0 Hf eq_refl)
    as [s' Hlog].
  rewrite Hlog. exists s'. split; [done|].
  destruct (__watchdog_log_call_bookkeeping _ _ _ _ _ _ _ Hlog)
    as [(-> & -> & -> & _ & -> & _ & -> & _) _].
  unfold tracked in Htr |- *. rewrite Hl in Htr. simpl in Htr.
  simpl. rewrite Hnext, Hac, Hba, Htr, !lookup_insert_eq. done.
Qed.

Lemma zero_allocate_size_witness :
  reachable cfg64 demo_allocated /\
  __watchdog_initialize cfg64 demo_allocated = Ok (tt, demo_allocated) /\
  12288 <> NULL /\
  exists s',
    _watchdog_calloc cfg64 10 4 "fileC" 5 12288 demo_allocated = Ok (12296, s') /\
    infos s' !! 1%nat
      = Some {| trace_list := [mk_trace "fileC" 5 40 CALL_CALLOC];
                address := 12296; allocated := true |} /\
    __bytes_allocated s' = 140.
Proof.
  split; [exact demo_allocated_reachable|]. split; [reflexivity|].
  split; [discriminate|].
  destruct (zero_allocate_size cfg64 demo_allocated demo_allocated 10 4 "fileC" 5 12288
              demo_allocated_reachable eq_refl)
    as (s' & Hrun & _ & Hi & _ & Hba & _); [discriminate|].
  exists s'. repeat split; assumption.
Defined.

(** The product is not checked for overflow: [2 ^ 63] elements of 2 bytes
    are recorded, and counted, as 0 bytes, in a raw block that has room for
    the header only. *)
Example zero_allocate_overflow :
  exists s',
    _watchdog_calloc cfg64 (2 ^ 63) 2 "fileC" 5 12288 demo_allocated = Ok (12296, s') /\
    heap s' !! 12288 = Some (mk_block 8 (Some (mk_chunk 1%nat))) /\
    infos s' !! 1%nat
      = Some {| trace_list := [mk_trace "fileC" 5 0 CALL_CALLOC];
                address := 12296; allocated := true |} /\
    __bytes_allocated s' = __bytes_allocated demo_allocated.
Proof. eexists. vm_compute. repeat split; reflexivity. Qed.

(** ** C8, C10: collection at exit *)

(** C8: with collection enabled, [__watchdog_collect] returns, having
    visited every record of the registry: a record marked allocated has had
    its last trace printed as still allocated, has been released through the
    internal free (so that it carries one more trace, of kind FREE, and is
    no longer marked allocated), and has added the size of the last trace it
    had before to [__bytes_collected]; a record already released is left as
    it was.  No raw block is live afterwards. *)
Theorem collect_effect (cfg : config) (s : state) :
  reachable cfg s -> __initialized s = true -> gc_flag cfg <> 0 ->
  exists f s',
    __stream s = Some f /\
    __watchdog_collect cfg s = Ok (tt, s') /\
    (forall p, p ∈ tracked s ->
       exists i, infos s !! p = Some i /\
         infos s' !! p
           = Some (if allocated i then released_info i "<garbage collector>" 0 else i)) /\
    (forall p i t, p ∈ tracked s -> infos s !! p = Some i ->
       chain_back (trace_list i) = Some t -> allocated i = true ->
       (f, msg_gc_still_allocated (func t) (file t) (line t) (size t)) ∈ output s') /\
    heap s' = ∅ /\
    __bytes_collected s' = wrap cfg (__bytes_collected s + live_bytes s) /\
    output s' = output s ++
      map (pair f) ([msg_gc] ++ gc_report (infos s) (tracked s) ++
                    [msg_gc_collected (__bytes_collected s')]).
Proof.
  intros Hs Hinit Hgc. pose proof (reachable_consistent _ _ Hs) as Hc.
  destruct (__watchdog_collect_runs cfg s Hc Hinit Hgc)
    as (f & s1 & Hf & (Hq & Hsub & Hgone & _ & _ & Hbc & Ho & _) & Hrun).
  simpl in Hq, Hsub, Hgone, Hbc, Ho.
  exists f, (logged f [msg_gc_collected (__bytes_collected s1)] s1).
  split; [done|]. split; [done|]. simpl.
  assert (Hout : output s1 ++ [(f, msg_gc_collected (__bytes_collected s1))]
                 = output s ++ map (pair f) ([msg_gc] ++ gc_report (infos s) (tracked s) ++
                     [msg_gc_collected (__bytes_collected s1)])).
  { rewrite Ho, !map_app, <- !app_assoc. done. }
  split; [|split; [|split; [|split; [done|done]]]].
  - intros p Hp. pose proof Hp as Hp'.
    apply (cons_registered _ _ Hc) in Hp' as [i Hi].
    exists i. split; [done|].
    rewrite Hq, decide_True, Hi by done. done.
  - intros p i t Hp Hi Ht Ha. rewrite Hout.
    apply elem_of_app. right. apply list_elem_of_fmap_2.
    apply elem_of_app. right. apply elem_of_app. left.
    unfold gc_report. apply list_elem_of_In, in_flat_map.
    exists p. split; [by apply list_elem_of_In|].
    rewrite Hi. unfold gc_messages. rewrite Ht, Ha. right. by left.
  - apply map_empty. intros c.
    destruct (heap s1 !! c) as [b|] eqn:Hb; [|done]. exfalso.
    pose proof (Hsub _ _ Hb) as Hb0.
    destruct (cons_heap _ _ Hc _ _ Hb0) as (_ & p & i & _ & Hi & Ha & Haddr).
    assert (Hp : p ∈ tracked s) by (apply (cons_registered _ _ Hc); by rewrite Hi).
    pose proof (Hgone p i Hp Hi Ha) as Hnone.
    replace (address i - chunk_header_bytes cfg) with c in Hnone by lia.
    by rewrite Hnone in Hb.
Qed.

Lemma collect_effect_witness :
  reachable cfg64 demo_leak /\ __initialized demo_leak = true /\ gc_flag cfg64 <> 0 /\
  exists f s',
    __stream demo_leak = Some f /\
    __watchdog_collect cfg64 demo_leak = Ok (tt, s') /\
    heap s' = ∅ /\
    __bytes_collected s' = wrap cfg64 (__bytes_collected demo_leak + live_bytes demo_leak).
Proof.
  split; [exact demo_leak_reachable|]. split; [reflexivity|]. split; [discriminate|].
  destruct (collect_effect cfg64 demo_leak demo_leak_reachable eq_refl)
    as (f & s' & Hf & Hrun & _ & _ & Hheap & Hbc & _); [discriminate|].
  exists f, s'. repeat split; assumption.
Defined.

(** C10: the collector releases a live record through [__watchdog_free],
    the function a release by the client goes through; so once it has run,
    [__frees_counter] has grown by the number of records that were marked
    allocated, and [__bytes_freed] as well as [__bytes_collected] by the sum
    of their sizes: what is collected is counted as freed too, and nothing
    is left of the difference between the bytes allocated and freed. *)
Theorem collect_counts_as_freed (cfg : config) (s : state) :
  reachable cfg s -> __initialized s = true -> gc_flag cfg <> 0 ->
  (forall f p i t,
     infos s !! p = Some i -> chain_back (trace_list i) = Some t ->
     allocated i = true ->
     collect_info cfg (Some f) p s
       = (fprintf (Some f) (msg_gc_address (address i)) ;;
          fprintf (Some f) (msg_gc_still_allocated (func t) (file t) (line t) (size t)) ;;
          __watchdog_free cfg (address i) "<garbage collector>" 0 ;;
          modify (fun s => set_bytes_collected
                             (wrap cfg (__bytes_collected s + size t)) s)) s) /\
  exists s',
    __watchdog_collect cfg s = Ok (tt, s') /\
    __frees_counter s' = wrap cfg (__frees_counter s + live_chunks s) /\
    __bytes_freed s' = wrap cfg (__bytes_freed s + live_bytes s) /\
    __bytes_collected s' = wrap cfg (__bytes_collected s + live_bytes s) /\
    __bytes_allocated s' = __bytes_allocated s /\
    __allocations_counter s' = __allocations_counter s /\
    wrap cfg (__bytes_allocated s' - __bytes_freed s') = 0.
Proof.
  intros Hs Hinit Hgc. pose proof (reachable_consistent _ _ Hs) as Hc.
  split.
  { intros f p i t Hi Ht Ha.
    unfold collect_info, load_info, back_trace.
    unfold bind at 1 2 3, gets, ret. by rewrite Hi, Ht, Ha. }
  destruct (__watchdog_collect_runs cfg s Hc Hinit Hgc)
    as (f & s1 & Hf & (_ & _ & _ & Hfc & Hbf & Hbc & _ & _ & _ & _ & Hac & Hba & _) & Hrun).
  simpl in Hfc, Hbf, Hbc, Hac, Hba.
  exists (logged f [msg_gc_collected (__bytes_collected s1)] s1).
  split; [done|]. simpl. repeat split; try done.
  rewrite Hba, Hbf, wrap_sub_r.
  replace (__bytes_allocated s - (__bytes_freed s + sum_over live_size (infos s) (tracked s)))
    with (__bytes_allocated s - __bytes_freed s + (- live_bytes s))
    by (unfold live_bytes; lia).
  rewrite (wrap_add_congr cfg _ _ _ (cons_bytes _ _ Hc)).
  replace (live_bytes s + - live_bytes s) with 0 by lia. done.
Qed.

Lemma collect_counts_as_freed_witness :
  reachable cfg64 demo_leak /\ __initialized demo_leak = true /\ gc_flag cfg64 <> 0 /\
  exists s',
    __watchdog_collect cfg64 demo_leak = Ok (tt, s') /\
    __frees_counter s' = wrap cfg64 (__frees_counter demo_leak + live_chunks demo_leak) /\
    __bytes_freed s' = wrap cfg64 (__bytes_freed demo_leak + live_bytes demo_leak) /\
    __bytes_collected s' = wrap cfg64 (__bytes_collected demo_leak + live_bytes demo_leak).
Proof.
  split; [exact demo_leak_reachable|]. split; [reflexivity|]. split; [discriminate|].
  destruct (proj2 (collect_counts_as_freed cfg64 demo_leak demo_leak_reachable eq_refl
                     ltac:(discriminate)))
    as (s' & Hrun & Hf & Hbf & Hbc & _).
  exists s'. repeat split; assumption.
Defined.

(** The scenario of the spec: the chunk of 50 bytes that is never released
    is reported as still allocated with size 50, and collected; afterwards
    2 frees and 400 bytes freed are counted, 50 of them as collected. *)
Example collect_demo :
  exists s',
    __watchdog_collect cfg64 demo_leak = Ok (tt, s') /\
    (stdout, msg_gc_still_allocated CALL_MALLOC "fileB" 7 50) ∈ output s' /\
    __frees_counter demo_leak = 1 /\ __frees_counter s' = 2 /\
    __bytes_freed demo_leak = 350 /\ __bytes_freed s' = 400 /\
    __bytes_collected demo_leak = 0 /\ __bytes_collected s' = 50.
Proof.
  eexists. split; [vm_compute; reflexivity|].
  split; [|by vm_compute].
  apply list_elem_of_In. vm_compute. tauto.
Qed.

(** * Further properties of the code *)

(** ** How a call changes the state *)

Section EffectsOfCalls.

Variable cfg : config.

Local Abbreviation sizeof_chunk_t := (chunk_header_bytes cfg).

Lemma __watchdog_initialize_effect (s s0 : state) :
  consistent cfg s ->
  __watchdog_initialize cfg s = Ok (tt, s0) -> effect cfg s s0.
Proof.
  intros Hc. rewrite __watchdog_initialize_eq.
  pose proof (cons_init _ _ Hc) as Hinit.
  destruct (__initialized s).
  - intros [= <-]. constructor.
  - destruct (selected_stream cfg) as [f|]; [|done].
    intros [= <-]. rewrite Hinit. constructor.
Qed.

Lemma __watchdog_log_call_effect call file line args (s s' : state) :
  __watchdog_log_call cfg call file line args s = Ok (tt, s') -> effect cfg s s'.
Proof.
  rewrite __watchdog_log_call_eq.
  destruct (__initialized s) eqn:Hi; [|done].
  destruct (verbose_flag cfg =? 0); [intros [= <-]; constructor|].
  destruct (log_messages call file line args) as [ms|]; [|done].
  destruct (__stream s) as [f|]; [|done].
  intros [= <-]. by constructor.
Qed.

Lemma __watchdog_allocate_effect size clear file line raw r (s s' : state) :
  __initialized s = true ->
  raw = NULL \/ unused raw s ->
  __watchdog_allocate cfg size clear file line raw s = Ok (r, s') ->
  effect cfg s s'.
Proof.
  intros Hi Hraw. rewrite __watchdog_allocate_eq.
  destruct (raw =? NULL) eqn:Hnull; [intros [= _ <-]; constructor|].
  destruct (__info_list s) as [l|] eqn:Hl; [|done].
  intros [= _ <-].
  destruct Hraw as [->|[Hpos Hfree]]; [done|]. by constructor.
Qed.

Lemma __watchdog_reallocate_effect ptr size file line raw r (s s' : state) :
  raw = NULL \/ raw = ptr - sizeof_chunk_t \/ unused raw s ->
  __watchdog_reallocate cfg ptr size file line raw s = Ok (r, s') ->
  effect cfg s s'.
Proof.
  intros Hraw. rewrite __watchdog_reallocate_eq.
  destruct (heap s !! (ptr - sizeof_chunk_t)) as [[n [c|]]|] eqn:Hh; try done.
  destruct (infos s !! info c) as [i|] eqn:Hi; [|done].
  destruct (chain_back (trace_list i)) as [t|] eqn:Ht; [|done].
  destruct (raw =? NULL) eqn:Hnull; [intros [= _ <-]; constructor|].
  intros [= _ <-].
  destruct Hraw as [->|Hraw]; [done|]. by econstructor.
Qed.

Lemma __watchdog_free_effect ptr file line r (s s' : state) :
  __watchdog_free cfg ptr file line s = Ok (r, s') -> effect cfg s s'.
Proof.
  rewrite __watchdog_free_eq.
  destruct (heap s !! (ptr - sizeof_chunk_t)) as [[n [c|]]|] eqn:Hh; try done.
  destruct (infos s !! info c) as [i|] eqn:Hi; [|done].
  destruct (chain_back (trace_list i)) as [t|] eqn:Ht; [|done].
  intros [= _ <-]. by econstructor.
Qed.

(** An effect keeps the invariant. *)
Lemma effect_consistent (s s' : state) :
  consistent cfg s -> effect cfg s s' -> consistent cfg s'.
Proof.
  intros Hc He. destruct He.
  - done.
  - apply initialized_state_consistent.
  - by apply logged_consistent.
  - by apply allocated_state_consistent.
  - by eapply reallocated_state_consistent.
  - by eapply freed_state_consistent.
Qed.

(** A call that returns is an initialisation (or nothing), then the effect
    of its internal function, then a logging (or nothing). *)
Lemma exec_effects (c : call) (s s' : state) :
  consistent cfg s -> allocator_ok cfg c s ->
  exec cfg c s = Ok (tt, s') ->
  exists s0 s1, effect cfg s s0 /\ effect cfg s0 s1 /\ effect cfg s1 s'.
Proof.
  intros Hc Hok Hexec.
  destruct c as [sz fl ln raw|num sz fl ln raw|ptr sz fl ln raw|ptr fl ln];
    simpl in Hexec, Hok;
    unfold _watchdog_malloc, _watchdog_calloc, _watchdog_realloc, _watchdog_free in Hexec;
    unfold bind in Hexec;
    destruct (__watchdog_initialize cfg s) as [[[] s0]|] eqn:Einit; try discriminate Hexec;
    destruct (__watchdog_initialize_consistent _ _ _ Hc Einit) as (Hc0 & Hi0 & Hheap);
    pose proof (__watchdog_initialize_effect _ _ Hc Einit) as He0;
    unfold unused in Hok; rewrite <- ?Hheap in Hok.
  - destruct (__watchdog_allocate cfg sz false fl ln raw s0) as [[r s1]|] eqn:Eop;
      [|discriminate Hexec].
    destruct (__watchdog_log_call cfg CALL_MALLOC fl ln [sz; r] s1) as [[[] s2]|] eqn:Elog;
      [|discriminate Hexec].
    injection Hexec as <-. exists s0, s1. repeat split; try done.
    + by eapply __watchdog_allocate_effect.
    + by eapply __watchdog_log_call_effect.
  - destruct (__watchdog_allocate cfg (wrap cfg (num * sz)) true fl ln raw s0)
      as [[r s1]|] eqn:Eop; [|discriminate Hexec].
    destruct (__watchdog_log_call cfg CALL_CALLOC fl ln [wrap cfg (num * sz); r] s1)
      as [[[] s2]|] eqn:Elog; [|discriminate Hexec].
    injection Hexec as <-. exists s0, s1. repeat split; try done.
    + by eapply __watchdog_allocate_effect.
    + by eapply __watchdog_log_call_effect.
  - destruct (__watchdog_reallocate cfg ptr sz fl ln raw s0) as [[r s1]|] eqn:Eop;
      [|discriminate Hexec].
    destruct (__watchdog_log_call cfg CALL_REALLOC fl ln [sz; ptr; r] s1)
      as [[[] s2]|] eqn:Elog; [|discriminate Hexec].
    injection Hexec as <-. exists s0, s1. repeat split; try done.
    + by eapply __watchdog_reallocate_effect.
    + by eapply __watchdog_log_call_effect.
  - destruct (__watchdog_free cfg ptr fl ln s0) as [[r s1]|] eqn:Eop;
      [|discriminate Hexec].
    exists s0, s1. repeat split; try done.
    + by eapply __watchdog_free_effect.
    + by eapply __watchdog_log_call_effect.
Qed.

(** What every effect keeps, every call that returns keeps. *)
Lemma exec_keeps (P : state -> Prop) :
  (forall s s', consistent cfg s -> P s -> effect cfg s s' -> P s') ->
  forall c s s', consistent cfg s -> P s -> allocator_ok cfg c s ->
    exec cfg c s = Ok (tt, s') -> P s'.
Proof.
  intros HP c s s' Hc Hs Hok Hexec.
  destruct (exec_effects c s s' Hc Hok Hexec) as (s0 & s1 & H0 & H1 & H2).
  pose proof (effect_consistent _ _ Hc H0) as Hc0.
  pose proof (effect_consistent _ _ Hc0 H1) as Hc1.
  eauto.
Qed.

End EffectsOfCalls.

(** ** The counters of calls, and the history that is kept *)

Section History.

Variable cfg : config.

Local Abbreviation sizeof_chunk_t := (chunk_header_bytes cfg).

Lemma live_count_released i file line :
  live_count (Some (released_info i file line)) = 0.
Proof. done. Qed.

Lemma counted_effect (s s' : state) :
  consistent cfg s -> counted cfg s -> effect cfg s s' -> counted cfg s'.
Proof.
  unfold counted. intros Hc Hn He.
  destruct He as [s|f|f ms s Hi|s sz clear fl ln raw l Hi Hl Hpos Hraw
                  |s ptr sz fl ln raw n c i t Hh Hi Ht Hraw|s ptr fl ln n c i t Hh Hi Ht].
  - done.
  - done.
  - done.
  - assert (Hnotin : next_info s ∉ l).
    { intros Hin. assert (next_info s < next_info s)%nat; [|lia].
      apply (cons_next _ _ Hc), (cons_registered _ _ Hc).
      unfold tracked. by rewrite Hl. }
    unfold live_chunks, tracked in *. rewrite Hl in Hn. simpl in *.
    rewrite sum_over_app, sum_over_insert_notin by done. simpl.
    rewrite lookup_insert_eq. simpl. rewrite wrap_sub_l.
    replace (__allocations_counter s + 1 - __frees_counter s)
      with (__allocations_counter s - __frees_counter s + 1) by lia.
    replace (sum_over live_count (infos s) l + (1 + 0))
      with (sum_over live_count (infos s) l + 1) by lia.
    by apply wrap_add_congr.
  - destruct (live_block _ _ _ _ _ Hc Hh) as (i' & _ & Hi' & _ & Ha & _ & Hin & _).
    rewrite Hi in Hi'. injection Hi' as <-.
    unfold live_chunks, tracked in *. simpl.
    rewrite sum_over_insert by (apply (cons_nodup _ _ Hc) || done).
    rewrite Hi, (live_count_allocated _ Ha). simpl.
    rewrite Hn. f_equal. lia.
  - destruct (live_block _ _ _ _ _ Hc Hh) as (i' & _ & Hi' & _ & Ha & _ & Hin & _).
    rewrite Hi in Hi'. injection Hi' as <-.
    unfold live_chunks, tracked in *. simpl.
    rewrite sum_over_insert by (apply (cons_nodup _ _ Hc) || done).
    rewrite Hi, (live_count_allocated _ Ha), live_count_released.
    rewrite wrap_sub_r.
    replace (__allocations_counter s - (__frees_counter s + 1))
      with (__allocations_counter s - __frees_counter s + (-1)) by lia.
    replace (sum_over live_count (infos s) (default [] (__info_list s)) - 1 + 0)
      with (sum_over live_count (infos s) (default [] (__info_list s)) + (-1)) by lia.
    by apply wrap_add_congr.
Qed.

Lemma reachable_counted (s : state) : reachable cfg s -> counted cfg s.
Proof.
  induction 1 as [|c s s' Hs IH Hok Hexec]; [done|].
  eapply (exec_keeps cfg (counted cfg)); eauto using counted_effect, reachable_consistent.
Qed.

Lemma extends_refl (s : state) : extends s s.
Proof. split; [done|]. intros p i Hi. by exists i. Qed.

Lemma extends_trans (s1 s2 s3 : state) :
  extends s1 s2 -> extends s2 s3 -> extends s1 s3.
Proof.
  intros [Hl12 Hi12] [Hl23 Hi23]. split; [by etrans|].
  intros p i Hi. destruct (Hi12 p i Hi) as (i2 & Hi2 & Hp2).
  destruct (Hi23 p i2 Hi2) as (i3 & Hi3 & Hp3).
  exists i3. split; [done|]. by etrans.
Qed.

(** A record replaced by one whose trace log is longer at the end. *)
Lemma extends_insert (s s' : state) p i i' :
  tracked s' = tracked s ->
  infos s !! p = Some i ->
  infos s' = <[p := i']> (infos s) ->
  trace_list i `prefix_of` trace_list i' ->
  extends s s'.
Proof.
  intros Hl Hi Hm Hp. split; [by rewrite Hl|].
  intros q j Hj. rewrite Hm.
  destruct (decide (p = q)) as [<-|Hne].
  - rewrite lookup_insert_eq. exists i'. split; [done|]. congruence.
  - rewrite lookup_insert_ne by done. by exists j.
Qed.

Lemma extends_effect (s s' : state) :
  consistent cfg s -> effect cfg s s' -> extends s s'.
Proof.
  intros Hc He.
  destruct He as [s|f|f ms s Hi|s sz clear fl ln raw l Hi Hl Hpos Hraw
                  |s ptr sz fl ln raw n c i t Hh Hi Ht Hraw|s ptr fl ln n c i t Hh Hi Ht].
  - apply extends_refl.
  - split; [apply prefix_nil|]. intros p i Hi.
    cbn [infos initial_state] in Hi. by rewrite lookup_empty in Hi.
  - split; [done|]. intros p i Hp. by exists i.
  - split.
    + unfold tracked. simpl. rewrite Hl. simpl. by apply prefix_app_r.
    + intros p i Hp. exists i. split; [|done]. simpl.
      rewrite lookup_insert_ne; [done|]. intros <-.
      assert (next_info s < next_info s)%nat; [|lia].
      apply (cons_next _ _ Hc). by rewrite Hp.
  - eapply extends_insert; [done|exact Hi|done|]. simpl. by apply prefix_app_r.
  - eapply extends_insert; [done|exact Hi|done|]. simpl. by apply prefix_app_r.
Qed.

Lemma exec_extends (c : call) (s s' : state) :
  consistent cfg s -> allocator_ok cfg c s ->
  exec cfg c s = Ok (tt, s') -> extends s s'.
Proof.
  intros Hc Hok Hexec.
  destruct (exec_effects cfg c s s' Hc Hok Hexec) as (s0 & s1 & H0 & H1 & H2).
  pose proof (effect_consistent _ _ _ Hc H0) as Hc0.
  pose proof (effect_consistent _ _ _ Hc0 H1) as Hc1.
  eapply extends_trans; [by apply extends_effect|].
  eapply extends_trans; by apply extends_effect.
Qed.

End History.

(** X1: at every point of a run of calls none of which faulted, the
    difference [__allocations_counter - __frees_counter], in [size_t]
    arithmetic, is the number of registered chunks marked allocated; a
    resize counts as neither. *)
Theorem calls_balance (cfg : config) (s : state) :
  reachable cfg s ->
  wrap cfg (__allocations_counter s - __frees_counter s) = wrap cfg (live_chunks s) /\
  (0 <= live_chunks s < 2 ^ size_t_bits cfg ->
   wrap cfg (__allocations_counter s - __frees_counter s) = live_chunks s) /\
  (forall ptr size file line raw data s',
     _watchdog_realloc cfg ptr size file line raw s = Ok (data, s') ->
     __allocations_counter s' = __allocations_counter s /\
     __frees_counter s' = __frees_counter s).
Proof.
  intros Hs. pose proof (reachable_counted _ _ Hs) as Hn. unfold counted in Hn.
  split; [done|]. split; [intros Hrange; rewrite Hn; by apply Z.mod_small|].
  intros ptr size file line raw data s'. unfold _watchdog_realloc, bind.
  destruct (__watchdog_initialize cfg s) as [[[] s0]|] eqn:Einit; [|done].
  destruct (__watchdog_reallocate cfg ptr size file line raw s0) as [[r s1]|] eqn:Eop;
    [|done].
  destruct (__watchdog_log_call cfg CALL_REALLOC file line [size; ptr; r] s1)
    as [[[] s2]|] eqn:Elog; [|done].
  intros [= _ <-].
  destruct (__watchdog_initialize_bookkeeping _ _ _ (reachable_consistent _ _ Hs) Einit)
    as ((_ & _ & _ & _ & Hac0 & Hfc0 & _) & _).
  destruct (__watchdog_log_call_bookkeeping _ _ _ _ _ _ _ Elog)
    as ((_ & _ & _ & _ & Hac2 & Hfc2 & _) & _).
  assert (Hop : __allocations_counter s1 = __allocations_counter s0 /\
                __frees_counter s1 = __frees_counter s0).
  { rewrite __watchdog_reallocate_eq in Eop.
    repeat case_match; try done; by injection Eop as _ <-. }
  destruct Hop as [Hac1 Hfc1]. split; congruence.
Qed.

Lemma calls_balance_witness :
  reachable cfg64 demo_leak /\
  wrap cfg64 (__allocations_counter demo_leak - __frees_counter demo_leak)
    = wrap cfg64 (live_chunks demo_leak) /\
  (0 <= live_chunks demo_leak < 2 ^ size_t_bits cfg64 ->
   wrap cfg64 (__allocations_counter demo_leak - __frees_counter demo_leak)
     = live_chunks demo_leak).
Proof.
  split; [exact demo_leak_reachable|].
  destruct (calls_balance cfg64 demo_leak demo_leak_reachable) as (Hmod & Hexact & _).
  split; [exact Hmod|exact Hexact].
Defined.

(** X2: nothing that was recorded is dropped or rewritten while the client
    runs: after any further calls the registry still begins with the records
    it had, in the same order, and the trace log of every record still
    begins with the traces it had; in particular the record of a released
    chunk stays registered. *)
Theorem history_is_kept (cfg : config) (calls : list call) (s s' : state) :
  reachable cfg s -> run_ok cfg calls s ->
  run cfg calls s = Ok (tt, s') ->
  extends s s'.
Proof.
  unfold run. revert s.
  induction calls as [|c calls IH]; simpl; intros s Hs Hok Hrun.
  - injection Hrun as <-. apply extends_refl.
  - destruct Hok as [Hc Hok]. unfold bind in Hrun.
    destruct (exec cfg c s) as [[[] s1]|] eqn:Hexec; [|done].
    eapply extends_trans.
    + eapply exec_extends; eauto using reachable_consistent.
    + apply IH; [|done|done]. by apply (reachable_step cfg c s s1).
Qed.

Lemma history_is_kept_witness :
  reachable cfg64 demo_allocated /\
  run_ok cfg64 [call_realloc 4104 250 "fileA" 20 8192;
                call_free 8200 "fileA" 30;
                call_malloc 50 "fileB" 7 4096] demo_allocated /\
  run cfg64 [call_realloc 4104 250 "fileA" 20 8192;
             call_free 8200 "fileA" 30;
             call_malloc 50 "fileB" 7 4096] demo_allocated = Ok (tt, demo_leak) /\
  extends demo_allocated demo_leak.
Proof.
  assert (Hok : run_ok cfg64 [call_realloc 4104 250 "fileA" 20 8192;
                              call_free 8200 "fileA" 30;
                              call_malloc 50 "fileB" 7 4096] demo_allocated).
  { vm_compute. intuition. }
  split; [exact demo_allocated_reachable|]. split; [exact Hok|].
  split; [vm_compute; reflexivity|].
  apply (history_is_kept cfg64 _ demo_allocated demo_leak demo_allocated_reachable Hok).
  vm_compute. reflexivity.
Defined.

(** ** Initialisation *)

(** X3: initialisation happens once: a second [__watchdog_initialize]
    changes nothing, so that the stream is set up, the registry created and
    the three hooks registered one time only, however many calls follow. *)
Theorem initialize_once (cfg : config) (s s0 : state) :
  __watchdog_initialize cfg s = Ok (tt, s0) ->
  __initialized s0 = true /\
  __watchdog_initialize cfg s0 = Ok (tt, s0) /\
  atexit_table s0
    = (if __initialized s then atexit_table s
       else atexit_table s ++ [hook_terminate; hook_report; hook_collect]).
Proof.
  rewrite !__watchdog_initialize_eq.
  destruct (__initialized s) eqn:Hi.
  - intros [= <-]. by rewrite Hi.
  - destruct (selected_stream cfg) as [f|]; [|done].
    by intros [= <-].
Qed.

Lemma initialize_once_witness :
  __watchdog_initialize cfg64 initial_state
    = Ok (tt, initialized_state stdout initial_state) /\
  __watchdog_initialize cfg64 (initialized_state stdout initial_state)
    = Ok (tt, initialized_state stdout initial_state) /\
  atexit_table (initialized_state stdout initial_state)
    = [hook_terminate; hook_report; hook_collect].
Proof.
  split; [reflexivity|].
  destruct (initialize_once cfg64 initial_state (initialized_state stdout initial_state)
              eq_refl) as (_ & Hagain & Htable).
  split; [exact Hagain|exact Htable].
Defined.

(** X4: when the configured output is neither of the standard streams and
    cannot be opened, the first call into the tracker, whichever it is,
    aborts the process. *)
Theorem initialization_failure_aborts (cfg : config) (s : state) :
  selected_stream cfg = None -> __initialized s = false ->
  (forall size file line raw, _watchdog_malloc cfg size file line raw s = Fault Aborted) /\
  (forall num size file line raw,
     _watchdog_calloc cfg num size file line raw s = Fault Aborted) /\
  (forall ptr size file line raw,
     _watchdog_realloc cfg ptr size file line raw s = Fault Aborted) /\
  (forall ptr file line, _watchdog_free cfg ptr file line s = Fault Aborted) /\
  (forall status file line, _watchdog_exit cfg status file line s = Fault Aborted) /\
  (forall file line, _watchdog_abort cfg file line s = Fault Aborted).
Proof.
  intros Hf Hi.
  assert (Hinit : __watchdog_initialize cfg s = Fault Aborted)
    by (by rewrite __watchdog_initialize_eq, Hi, Hf).
  unfold _watchdog_malloc, _watchdog_calloc, _watchdog_realloc, _watchdog_free,
    _watchdog_exit, _watchdog_abort, bind.
  by rewrite Hinit.
Qed.

Lemma initialization_failure_aborts_witness :
  selected_stream (mk_config 64 8 "/nowhere/watchdog.log" 1 1 1 false) = None /\
  __initialized initial_state = false /\
  _watchdog_malloc (mk_config 64 8 "/nowhere/watchdog.log" 1 1 1 false)
    100 "fileA" 10 4096 initial_state = Fault Aborted.
Proof.
  split; [reflexivity|]. split; [reflexivity|].
  apply (initialization_failure_aborts
           (mk_config 64 8 "/nowhere/watchdog.log" 1 1 1 false) initial_state);
    reflexivity.
Defined.

(** ** Releasing *)

(** Logging a call, when it returns, has touched the output only. *)
Lemma __watchdog_log_call_frame (cfg : config) call file line args (s s' : state) :
  __watchdog_log_call cfg call file line args s = Ok (tt, s') ->
  infos s' = infos s /\ heap s' = heap s /\ __info_list s' = __info_list s /\
  next_info s' = next_info s /\
  __initialized s = true /\ __initialized s' = true /\ __stream s' = __stream s /\
  atexit_table s' = atexit_table s /\
  __allocations_counter s' = __allocations_counter s /\
  __frees_counter s' = __frees_counter s /\
  __bytes_allocated s' = __bytes_allocated s /\
  __bytes_freed s' = __bytes_freed s /\
  __bytes_collected s' = __bytes_collected s.
Proof.
  rewrite __watchdog_log_call_eq.
  destruct (__initialized s) eqn:Hi; [|done].
  repeat case_match; try done; intros [= <-]; by repeat split.
Qed.

(** X5: a release is not checked against an earlier one: right after a
    release that returned, a second release of the same pointer, and a resize
    of it, read a header that is no longer there. *)
Theorem release_twice_faults (cfg : config) (s s' : state) (ptr : pointer)
    (file : string) (line : Z) :
  _watchdog_free cfg ptr file line s = Ok (tt, s') ->
  (forall file' line', _watchdog_free cfg ptr file' line' s' = Fault InvalidAccess) /\
  (forall size file' line' raw,
     _watchdog_realloc cfg ptr size file' line' raw s' = Fault InvalidAccess).
Proof.
  unfold _watchdog_free at 1. unfold bind.
  destruct (__watchdog_initialize cfg s) as [[[] s0]|] eqn:Einit; [|done].
  destruct (__watchdog_free cfg ptr file line s0) as [[r s1]|] eqn:Efree; [|done].
  intros Hlog.
  destruct (__watchdog_log_call_frame _ _ _ _ _ _ _ Hlog)
    as (_ & Hheap & _ & _ & _ & Hi' & _).
  assert (Hgone : heap s' !! (ptr - chunk_header_bytes cfg) = None).
  { rewrite Hheap. rewrite __watchdog_free_eq in Efree.
    repeat case_match; try done. injection Efree as _ <-. simpl.
    apply lookup_delete_eq. }
  split.
  - intros file' line'. unfold _watchdog_free, bind.
    rewrite __watchdog_initialize_eq, Hi', __watchdog_free_eq. by rewrite Hgone.
  - intros size file' line' raw. unfold _watchdog_realloc, bind.
    rewrite __watchdog_initialize_eq, Hi', __watchdog_reallocate_eq. by rewrite Hgone.
Qed.

Lemma release_twice_faults_witness :
  exists s',
    _watchdog_free cfg64 4104 "fileA" 30 demo_allocated = Ok (tt, s') /\
    _watchdog_free cfg64 4104 "fileA" 31 s' = Fault InvalidAccess /\
    _watchdog_realloc cfg64 4104 10 "fileA" 32 8192 s' = Fault InvalidAccess.
Proof.
  eexists. split; [vm_compute; reflexivity|].
  match goal with
  | |- _watchdog_free _ _ _ _ ?s' = _ /\ _ =>
      destruct (release_twice_faults cfg64 demo_allocated s' 4104 "fileA" 30)
        as [Hfree Hresize]; [vm_compute; reflexivity|]
  end.
  split; [apply Hfree|apply Hresize].
Defined.

(** X6: an allocation that succeeds followed by the release of the pointer
    it returned gives the raw block back, so that the live blocks, the live
    bytes and the live chunks are what they were; what stays is one more
    record in the registry, not marked allocated, with the two traces, and
    both pairs of counters advanced by one call and by the size. *)
Theorem allocate_release_round_trip (cfg : config) (s s0 : state) (size : Z)
    (file : string) (line : Z) (file' : string) (line' : Z) (raw : pointer) :
  reachable cfg s ->
  __watchdog_initialize cfg s = Ok (tt, s0) ->
  unused raw s ->
  exists s1 s2,
    _watchdog_malloc cfg size file line raw s
      = Ok (raw + chunk_header_bytes cfg, s1) /\
    _watchdog_free cfg (raw + chunk_header_bytes cfg) file' line' s1 = Ok (tt, s2) /\
    heap s2 = heap s /\
    live_bytes s2 = live_bytes s /\ live_chunks s2 = live_chunks s /\
    tracked s2 = tracked s ++ [next_info s] /\
    infos s2 = <[next_info s := {| trace_list := [mk_trace file line size CALL_MALLOC;
                                                  mk_trace file' line' 0 CALL_FREE];
                                   address := raw + chunk_header_bytes cfg;
                                   allocated := false |}]> (infos s) /\
    __allocations_counter s2 = wrap cfg (__allocations_counter s + 1) /\
    __frees_counter s2 = wrap cfg (__frees_counter s + 1) /\
    __bytes_allocated s2 = wrap cfg (__bytes_allocated s + size) /\
    __bytes_freed s2 = wrap cfg (__bytes_freed s + size).
Proof.
  intros Hs Hinit [Hpos Hfree].
  pose proof (reachable_consistent _ _ Hs) as Hc.
  destruct (__watchdog_initialize_bookkeeping _ _ _ Hc Hinit)
    as (Hsame & Hc0 & Hi0 & l & f & Hl & Hf).
  destruct Hsame as (Hinfos & Htr & Hheap & Hnext & Hac & Hfc & Hba & Hbf & _).
  assert (Hnull : (raw =? NULL) = false) by (apply Z.eqb_neq; unfold NULL; lia).
  assert (Htracked : tracked s = l).
  { rewrite <- Htr. unfold tracked. by rewrite Hl. }
  assert (Hnotin : next_info s ∉ l).
  { rewrite <- Htracked. intros Hin.
    assert (next_info s < next_info s)%nat; [|lia].
    by apply (cons_next _ _ Hc), (cons_registered _ _ Hc). }
  (* the allocation *)
  set (s1a := allocated_state cfg size false file line raw l s0).
  destruct (__watchdog_log_call_returns cfg CALL_MALLOC file line
              [size; raw + chunk_header_bytes cfg] _ f s1a Hi0 Hf eq_refl)
    as [s1 Hlog1].
  destruct (__watchdog_log_call_frame _ _ _ _ _ _ _ Hlog1)
    as (Hm1 & Hh1 & Hl1 & _ & _ & Hi1 & Hf1 & _ & Hac1 & Hfc1 & Hba1 & Hbf1 & _).
  simpl in Hm1, Hh1, Hl1, Hf1, Hac1, Hfc1, Hba1, Hbf1.
  (* the release *)
  assert (Hblock : heap s1 !! (raw + chunk_header_bytes cfg - chunk_header_bytes cfg)
                   = Some (mk_block (wrap cfg (chunk_header_bytes cfg + size))
                             (Some (mk_chunk (next_info s0))))).
  { rewrite Z.add_simpl_r, Hh1. apply lookup_insert_eq. }
  assert (Hrecord : infos s1 !! next_info s0
                    = Some (fresh_info cfg size false file line raw)).
  { rewrite Hm1. apply lookup_insert_eq. }
  set (s2a := freed_state cfg (next_info s0) (fresh_info cfg size false file line raw)
                size (raw + chunk_header_bytes cfg) file' line' s1).
  assert (Hfree2 : __watchdog_free cfg (raw + chunk_header_bytes cfg) file' line' s1
                   = Ok (size, s2a)).
  { rewrite __watchdog_free_eq, Hblock. simpl. by rewrite Hrecord. }
  destruct (__watchdog_log_call_returns cfg CALL_FREE file' line'
              [size; raw + chunk_header_bytes cfg] _ f s2a Hi1 (eq_trans Hf1 Hf) eq_refl)
    as [s2 Hlog2].
  destruct (__watchdog_log_call_frame _ _ _ _ _ _ _ Hlog2)
    as (Hm2 & Hh2 & Hl2 & _ & _ & _ & _ & _ & Hac2 & Hfc2 & Hba2 & Hbf2 & _).
  simpl in Hm2, Hh2, Hl2, Hac2, Hfc2, Hba2, Hbf2.
  assert (Hinfos2 : infos s2
    = <[next_info s := {| trace_list := [mk_trace file line size CALL_MALLOC;
                                         mk_trace file' line' 0 CALL_FREE];
                          address := raw + chunk_header_bytes cfg;
                          allocated := false |}]> (infos s)).
  { rewrite Hm2, Hm1, insert_insert_eq, Hnext, Hinfos. done. }
  assert (Htracked2 : tracked s2 = tracked s ++ [next_info s]).
  { unfold tracked at 1. rewrite Hl2, Hl1, Htracked, Hnext. done. }
  exists s1, s2. split; [|split].
  - unfold _watchdog_malloc, bind.
    rewrite Hinit, __watchdog_allocate_eq, Hnull, Hl. fold s1a. by rewrite Hlog1.
  - unfold _watchdog_free, bind.
    rewrite __watchdog_initialize_eq, Hi1, Hfree2. exact Hlog2.
  - split.
    { rewrite Hh2, Z.add_simpl_r, Hh1, delete_insert_id; [done|]. by rewrite Hheap. }
    split.
    { unfold live_bytes. rewrite Htracked2, Hinfos2, sum_over_app, Htracked.
      rewrite sum_over_insert_notin by done. simpl. rewrite lookup_insert_eq.
      simpl. lia. }
    split.
    { unfold live_chunks. rewrite Htracked2, Hinfos2, sum_over_app, Htracked.
      rewrite sum_over_insert_notin by done. simpl. rewrite lookup_insert_eq.
      simpl. lia. }
    rewrite Hac2, Hfc2, Hba2, Hbf2, Hac1, Hfc1, Hba1, Hbf1, Hac, Hfc, Hba, Hbf.
    by repeat split.
Qed.

Lemma allocate_release_round_trip_witness :
  reachable cfg64 demo_allocated /\
  __watchdog_initialize cfg64 demo_allocated = Ok (tt, demo_allocated) /\
  unused 12288 demo_allocated /\
  exists s1 s2,
    _watchdog_malloc cfg64 24 "fileC" 5 12288 demo_allocated = Ok (12296, s1) /\
    _watchdog_free cfg64 12296 "fileC" 6 s1 = Ok (tt, s2) /\
    heap s2 = heap demo_allocated /\
    live_bytes s2 = live_bytes demo_allocated.
Proof.
  assert (Hfree : unused 12288 demo_allocated) by (split; reflexivity).
  split; [exact demo_allocated_reachable|]. split; [reflexivity|]. split; [exact Hfree|].
  destruct (allocate_release_round_trip cfg64 demo_allocated demo_allocated 24
              "fileC" 5 "fileC" 6 12288 demo_allocated_reachable eq_refl Hfree)
    as (s1 & s2 & H1 & H2 & Hh & Hb & _).
  exists s1, s2. repeat split; assumption.
Defined.

(** ** The report and the termination *)

Lemma logged_nil f (s : state) : logged f [] s = s.
Proof. destruct s. unfold logged, set_output. simpl. by rewrite app_nil_r. Qed.

Lemma logged_logged f ms1 ms2 (s : state) :
  logged f ms2 (logged f ms1 s) = logged f (ms1 ++ ms2) s.
Proof. unfold logged, set_output. simpl. by rewrite map_app, app_assoc. Qed.

Lemma fprintf_eq f m (s : state) : fprintf (Some f) m s = Ok (tt, logged f [m] s).
Proof. done. Qed.

(** A loop that only prints. *)
Lemma for_each_fprintf {A : Type} f (g : A -> message) (l : list A) :
  forall s : state,
    for_each (fun x => fprintf (Some f) (g x)) l s = Ok (tt, logged f (map g l) s).
Proof.
  induction l as [|x l IH]; intros s; simpl.
  - by rewrite logged_nil.
  - unfold bind. simpl. rewrite IH. f_equal. f_equal.
    unfold logged, set_output. simpl. by rewrite <- app_assoc.
Qed.

Section Hooks.

Variable cfg : config.

Lemma consistent_registered (s : state) :
  consistent cfg s -> __initialized s = true -> registered s.
Proof.
  intros Hc Hi. pose proof (cons_init _ _ Hc) as Hinit. rewrite Hi in Hinit.
  destruct Hinit as (Hl & Hf & _).
  repeat split; try done;
    [apply (cons_nodup _ _ Hc)|apply (cons_registered _ _ Hc)..].
Qed.

Lemma registered_logged f ms (s : state) : registered s -> registered (logged f ms s).
Proof.
  intros (? & ? & ? & ? & Hreg). repeat split; try done; apply (Hreg p).
Qed.

(** What the report does with one record. *)
Lemma report_record f p i (s : state) :
  infos s !! p = Some i ->
  (let* i := load_info p in
   fprintf (Some f) (msg_report_address (address i)) ;;
   for_each (fun current_trace =>
     fprintf (Some f) (msg_report_trace (func current_trace) (file current_trace)
                         (line current_trace) (size current_trace)))
     (chain_iterate (trace_list i))) s
  = Ok (tt, logged f (record_messages (Some i)) s).
Proof.
  intros Hi. unfold bind at 1, load_info. unfold bind at 1, gets, ret.
  cbv beta. rewrite Hi. cbv beta iota. unfold bind.
  rewrite fprintf_eq. unfold chain_iterate.
  by rewrite for_each_fprintf, logged_logged.
Qed.

(** The loop of the report over the records [l], all of them there. *)
Lemma report_loop f (l : list nat) :
  forall s : state,
    (forall p, p ∈ l -> is_Some (infos s !! p)) ->
    for_each (fun current_info =>
      let* i := load_info current_info in
      fprintf (Some f) (msg_report_address (address i)) ;;
      for_each (fun current_trace =>
        fprintf (Some f) (msg_report_trace (func current_trace) (file current_trace)
                            (line current_trace) (size current_trace)))
        (chain_iterate (trace_list i))) l s
    = Ok (tt, logged f (flat_map (fun p => record_messages (infos s !! p)) l) s).
Proof.
  induction l as [|p l IH]; intros s Hl.
  - simpl. by rewrite logged_nil.
  - destruct (Hl p) as [i Hi]; [by left|].
    cbn [for_each]. unfold bind at 1. cbv beta.
    rewrite (report_record f p i s Hi), IH.
    + rewrite logged_logged. cbn [flat_map]. by rewrite Hi.
    + intros q Hq. simpl. apply Hl. by right.
Qed.

(** The report returns, and prints: the records in the order of the
    registry, each with its traces in the order they were made, then the
    counters. *)
Lemma __watchdog_report_runs (s : state) :
  registered s ->
  exists f,
    __stream s = Some f /\
    __watchdog_report cfg s
      = Ok (tt, logged f (if report_flag cfg =? 0 then [] else report_messages s) s).
Proof.
  intros (Hi & [f Hf] & [l Hl] & _ & Hreg).
  exists f. split; [done|].
  unfold __watchdog_report. unfold bind at 1, gets. cbv beta. rewrite Hi.
  unfold bind at 1, assert, ret. cbv beta iota.
  destruct (report_flag cfg =? 0); [by rewrite logged_nil|].
  unfold bind at 1. cbv beta. rewrite Hf.
  unfold bind at 1. rewrite fprintf_eq. cbv beta iota.
  unfold bind at 1, registry. unfold bind at 1, gets. cbv beta.
  change (__info_list (logged f [msg_report] s)) with (__info_list s).
  rewrite Hl. unfold ret at 1. cbv beta iota.
  unfold bind at 1. unfold chain_iterate at 2. rewrite report_loop.
  - unfold bind, gets. cbv beta iota.
    rewrite !fprintf_eq. cbv beta iota. rewrite !logged_logged.
    unfold report_messages, tracked. rewrite Hl. simpl.
    by rewrite <- ?app_assoc.
  - intros p Hp. simpl. apply Hreg. unfold tracked. by rewrite Hl.
Qed.

(** The loop of the termination over the records [l], all of them there and
    none of them twice: they are released, and nothing else is touched but
    the registry. *)
Lemma terminate_loop_runs (l : list nat) :
  forall s : state,
    NoDup l -> (forall p, p ∈ l -> is_Some (infos s !! p)) ->
    exists s',
      terminate_loop l s = Ok (tt, s') /\
      (forall q, infos s' !! q = if decide (q ∈ l) then None else infos s !! q) /\
      heap s' = heap s /\ output s' = output s /\ __stream s' = __stream s /\
      __allocations_counter s' = __allocations_counter s /\
      __frees_counter s' = __frees_counter s /\
      __bytes_allocated s' = __bytes_allocated s /\
      __bytes_freed s' = __bytes_freed s /\
      __bytes_collected s' = __bytes_collected s.
Proof.
  induction l as [|p l IH]; intros s Hnd Hl.
  - exists s. by repeat split.
  - apply NoDup_cons in Hnd as [Hp Hnd].
    destruct (Hl p) as [i Hi]; [by left|].
    set (s1 := set_infos (delete p (infos s)) (set_info_list (Some l) s)).
    destruct (IH s1 Hnd) as (s' & Hrun & Hq & Hrest).
    { intros q Hq. simpl. rewrite lookup_delete_ne by (by intros ->).
      apply Hl. by right. }
    exists s'. split.
    { cbn [terminate_loop]. unfold bind at 1, modify. cbv beta iota.
      unfold bind at 1, load_info. unfold bind at 1, gets, ret. cbv beta.
      cbn [infos set_info_list]. rewrite Hi. cbv beta iota.
      unfold bind at 1, free_info. unfold bind at 1, gets. cbv beta.
      cbn [infos set_info_list]. rewrite Hi. unfold modify. cbv beta iota.
      exact Hrun. }
    split; [|exact Hrest].
    intros q. rewrite Hq. simpl.
    destruct (decide (p = q)) as [<-|Hne].
    + rewrite decide_False, decide_True, lookup_delete_eq by (done || by left). done.
    + rewrite lookup_delete_ne by done.
      destruct (decide (q ∈ l)) as [Hin|Hnin].
      * rewrite decide_True; [done|by right].
      * rewrite decide_False; [done|]. by intros [->|?]%elem_of_cons.
Qed.

Lemma __watchdog_terminate_runs (s : state) :
  registered s ->
  exists f s',
    __stream s = Some f /\
    __watchdog_terminate s = Ok (tt, s') /\
    infos s' = ∅ /\ __info_list s' = None /\ heap s' = heap s /\
    output s' = output s ++ map (pair f) (terminate_messages f) /\
    __allocations_counter s' = __allocations_counter s /\
    __frees_counter s' = __frees_counter s /\
    __bytes_allocated s' = __bytes_allocated s /\
    __bytes_freed s' = __bytes_freed s /\
    __bytes_collected s' = __bytes_collected s.
Proof.
  intros (Hi & [f Hf] & [l Hl] & Hnd & Hreg).
  unfold tracked in Hnd, Hreg. rewrite Hl in Hnd, Hreg. simpl in Hnd, Hreg.
  destruct (terminate_loop_runs l s Hnd) as (s1 & Hrun & Hq & Hh & Ho & Hf1 & Hrest).
  { intros p Hp. by apply Hreg. }
  assert (Hempty : infos s1 = ∅).
  { apply map_empty. intros q. rewrite Hq.
    destruct (decide (q ∈ l)) as [|Hnin]; [done|].
    destruct (infos s !! q) eqn:Hq'; [|done].
    exfalso. apply Hnin, Hreg. by rewrite Hq'. }
  exists f.
  destruct Hrest as (Hac & Hfc & Hba & Hbf & Hbc).
  unfold __watchdog_terminate. unfold bind at 1, gets. cbv beta. rewrite Hi.
  unfold bind at 1, assert, ret. cbv beta iota.
  unfold bind at 1, registry. unfold bind at 1, gets. cbv beta. rewrite Hl.
  unfold ret at 1. cbv beta iota. unfold bind at 1. rewrite Hrun.
  unfold bind at 1, modify. cbv beta iota. unfold bind at 1, gets. cbv beta.
  cbn [__stream set_info_list]. rewrite Hf1, Hf.
  unfold bind at 1. rewrite fprintf_eq. cbv beta iota.
  destruct f as [| |path]; unfold fclose; rewrite ?fprintf_eq, ?logged_logged;
    eexists; (split; [done|]); (split; [reflexivity|]);
    simpl; rewrite Hempty, Hh, Ho, Hac, Hfc, Hba, Hbf, Hbc; by repeat split.
Qed.

End Hooks.

(** ** The exit of the process *)

Section Exit.

Variable cfg : config.

(** With the three hooks of the tracker registered, [exit] is the
    collector, then the report, then the termination. *)
Lemma exit_eq (status : Z) (s : state) :
  atexit_table s = [hook_terminate; hook_report; hook_collect] ->
  exit cfg status s
    = (__watchdog_collect cfg ;; __watchdog_report cfg ;; __watchdog_terminate) s.
Proof.
  intros Htable. unfold exit. unfold bind at 1, gets. rewrite Htable. simpl.
  unfold bind at 1 4.
  destruct (__watchdog_collect cfg s) as [[[] s1]|]; [|done].
  unfold bind at 1 3.
  destruct (__watchdog_report cfg s1) as [[[] s2]|]; [|done].
  apply bind_ret_tt.
Qed.

(** After the report and the termination no record is left, the registry is
    gone, and neither the raw blocks nor the counters have been touched. *)
Lemma report_terminate_runs (s : state) :
  registered s ->
  exists f s',
    __stream s = Some f /\
    (__watchdog_report cfg ;; __watchdog_terminate) s = Ok (tt, s') /\
    infos s' = ∅ /\ __info_list s' = None /\ heap s' = heap s /\
    output s' = output s ++
      map (pair f) ((if report_flag cfg =? 0 then [] else report_messages s) ++
                    terminate_messages f) /\
    __allocations_counter s' = __allocations_counter s /\
    __frees_counter s' = __frees_counter s /\
    __bytes_allocated s' = __bytes_allocated s /\
    __bytes_freed s' = __bytes_freed s /\
    __bytes_collected s' = __bytes_collected s.
Proof.
  intros Hreg.
  destruct (__watchdog_report_runs cfg s Hreg) as (f & Hf & Hreport).
  set (ms := if report_flag cfg =? 0 then [] else report_messages s) in *.
  destruct (__watchdog_terminate_runs (logged f ms s) (registered_logged f ms s Hreg))
    as (f' & s' & Hf' & Hterm & Hm & Hl & Hh & Ho & Hrest).
  simpl in Hf'. rewrite Hf in Hf'. injection Hf' as <-.
  exists f, s'. split; [done|]. split; [by unfold bind; rewrite Hreport|].
  simpl in Hh, Ho, Hrest. rewrite Ho, map_app, app_assoc.
  destruct Hrest as (? & ? & ? & ? & ?). by repeat split.
Qed.

(** Once the collector has run over the whole registry no raw block is
    live. *)
Lemma collected_heap_empty f ms (s s1 : state) :
  consistent cfg s ->
  collected cfg f (tracked s) (logged f ms s) s1 -> heap s1 = ∅.
Proof.
  intros Hc (_ & Hsub & Hgone & _). simpl in Hsub, Hgone.
  apply map_empty. intros c.
  destruct (heap s1 !! c) as [b|] eqn:Hb; [|done]. exfalso.
  pose proof (Hsub _ _ Hb) as Hb0.
  destruct (cons_heap _ _ Hc _ _ Hb0) as (_ & p & i & _ & Hi & Ha & Haddr).
  assert (Hp : p ∈ tracked s) by (apply (cons_registered _ _ Hc); by rewrite Hi).
  pose proof (Hgone p i Hp Hi Ha) as Hnone.
  replace (address i - chunk_header_bytes cfg) with c in Hnone by lia.
  by rewrite Hnone in Hb.
Qed.

(** The collector leaves the registry and its records in place. *)
Lemma collected_registered f ms ms' (s s1 : state) :
  consistent cfg s -> __initialized s = true ->
  collected cfg f (tracked s) (logged f ms s) s1 ->
  registered (logged f ms' s1).
Proof.
  intros Hc Hinit (Hq & _ & _ & _ & _ & _ & _ & Hf & Hi & Hl & _).
  simpl in Hq, Hf, Hi, Hl.
  destruct (consistent_registered cfg s Hc Hinit) as (_ & Hstream & Hlist & Hnd & Hreg).
  assert (Htr : tracked s1 = tracked s) by (unfold tracked; by rewrite Hl).
  apply registered_logged. repeat split.
  - by rewrite Hi.
  - by rewrite Hf.
  - by rewrite Hl.
  - by rewrite Htr.
  - rewrite Htr. intros Hp. rewrite Hq, decide_True by done.
    apply Hreg in Hp as [i Hp]. rewrite Hp. by eexists.
  - rewrite Htr, Hq. destruct (decide (p ∈ tracked s)); [done|]. apply Hreg.
Qed.

(** The exit of a process whose tracker is initialised, with collection
    enabled. *)
Lemma exit_collects (status : Z) (s : state) :
  consistent cfg s -> counted cfg s -> __initialized s = true ->
  gc_flag cfg <> 0 ->
  exists f s',
    __stream s = Some f /\
    exit cfg status s = Ok (tt, s') /\
    heap s' = ∅ /\ infos s' = ∅ /\ __info_list s' = None /\
    __allocations_counter s' = __allocations_counter s /\
    __frees_counter s' = __allocations_counter s /\
    __bytes_allocated s' = __bytes_allocated s /\
    __bytes_freed s' = __bytes_allocated s /\
    __bytes_collected s' = wrap cfg (__bytes_collected s + live_bytes s) /\
    (report_flag cfg <> 0 ->
     (f, msg_report_counts (__allocations_counter s) (__allocations_counter s))
       ∈ output s' /\
     (f, msg_report_bytes (__bytes_allocated s) (__bytes_allocated s)
           (wrap cfg (__bytes_collected s + live_bytes s))) ∈ output s').
Proof.
  intros Hc Hn Hinit Hgc.
  pose proof (cons_init _ _ Hc) as Htable. rewrite Hinit in Htable.
  destruct Htable as (_ & _ & Htable).
  destruct (__watchdog_collect_runs cfg s Hc Hinit Hgc) as (f & s1 & Hf & Hcol & Hrun).
  set (s2 := logged f [msg_gc_collected (__bytes_collected s1)] s1) in *.
  pose proof (collected_heap_empty _ _ _ _ Hc Hcol) as Hheap.
  pose proof (collected_registered f [msg_gc] [msg_gc_collected (__bytes_collected s1)]
                s s1 Hc Hinit Hcol) as Hreg.
  fold s2 in Hreg.
  destruct Hcol as (_ & _ & _ & Hfc & Hbf & Hbc & _ & Hst & _ & _ & Hac & Hba & _).
  simpl in Hfc, Hbf, Hbc, Hac, Hba, Hst.
  destruct (cons_wrapped _ _ Hc) as (Hwa & _ & Hwb & _ & _).
  assert (Hfrees : __frees_counter s1 = __allocations_counter s).
  { rewrite Hfc. fold (live_chunks s).
    rewrite <- wrap_add_r, <- Hn, wrap_add_r, <- Hwa. f_equal. lia. }
  assert (Hfreed : __bytes_freed s1 = __bytes_allocated s).
  { rewrite Hbf. fold (live_bytes s).
    rewrite <- wrap_add_r, <- (cons_bytes _ _ Hc), wrap_add_r, <- Hwb. f_equal. lia. }
  destruct (report_terminate_runs s2 Hreg)
    as (f' & s' & Hf' & Hrest & Hm & Hl & Hh & Ho & Hac' & Hfc' & Hba' & Hbf' & Hbc').
  assert (f' = f) as ->.
  { simpl in Hf'. rewrite Hst, Hf in Hf'. by injection Hf'. }
  simpl in Hh, Hac', Hfc', Hba', Hbf', Hbc'.
  exists f, s'. split; [done|]. split.
  { rewrite exit_eq by done. unfold bind at 1. rewrite Hrun. exact Hrest. }
  rewrite Hm, Hl, Hh, Hheap, Hac', Hfc', Hba', Hbf', Hbc', Hac, Hba, Hfrees, Hfreed, Hbc.
  repeat (split; [done|]).
  intros Hreport. apply Z.eqb_neq in Hreport. rewrite Ho, Hreport.
  split.
  all: apply elem_of_app; right; apply list_elem_of_fmap_2.
  all: apply elem_of_app; left; unfold report_messages.
  all: apply elem_of_app; right; apply elem_of_app; right.
  all: simpl; rewrite Hac, Hfrees, Hba, Hfreed, Hbc.
  - apply list_elem_of_here.
  - apply list_elem_of_further, list_elem_of_here.
Qed.

End Exit.





(** What [_watchdog_exit] does before it calls [exit]. *)
Lemma _watchdog_exit_prelude (cfg : config) (s s0 : state) (status : Z)
    (file : string) (line : Z) :
  reachable cfg s ->
  __watchdog_initialize cfg s = Ok (tt, s0) ->
  exists s1,
    _watchdog_exit cfg status file line s = exit cfg status s1 /\
    consistent cfg s1 /\ counted cfg s1 /\ __initialized s1 = true /\
    __stream s1 = __stream s0 /\ same_bookkeeping s s1.
Proof.
  intros Hs Hinit. pose proof (reachable_consistent _ _ Hs) as Hc.
  destruct (__watchdog_initialize_bookkeeping _ _ _ Hc Hinit)
    as (Hsame & Hc0 & Hi0 & l & f & Hl & Hf).
  pose proof (counted_effect cfg _ _ Hc (reachable_counted _ _ Hs)
                (__watchdog_initialize_effect _ _ _ Hc Hinit)) as Hn0.
  destruct (__watchdog_log_call_returns cfg CALL_EXIT file line [status] _ f s0
              Hi0 Hf eq_refl) as [s1 Hlog].
  exists s1. split; [by unfold _watchdog_exit, bind; rewrite Hinit, Hlog|].
  split; [by eapply __watchdog_log_call_consistent|].
  split; [eapply counted_effect; eauto using __watchdog_log_call_effect|].
  destruct (__watchdog_log_call_frame _ _ _ _ _ _ _ Hlog)
    as (_ & _ & _ & _ & _ & Hi1 & Hst & _).
  split; [done|]. split; [done|].
  apply (same_bookkeeping_trans _ _ _ Hsame).
  apply (__watchdog_log_call_bookkeeping _ _ _ _ _ _ _ Hlog).
Qed.

Lemma same_bookkeeping_live (s s' : state) :
  same_bookkeeping s s' ->
  live_bytes s' = live_bytes s /\ live_chunks s' = live_chunks s.
Proof.
  intros (Hm & Htr & _). unfold live_bytes, live_chunks. by rewrite Hm, Htr.
Qed.

(** X9: with collection enabled, [_watchdog_exit] runs its three hooks to
    the end and leaves nothing behind: no raw block, no record, no registry.
    Every chunk the client had not released is released by the collector, so
    that at the end as many frees as allocations and as many bytes freed as
    allocated are counted, and the report prints the counters that way; what
    the client leaked shows in [__bytes_collected] only. *)
Theorem exit_with_collection (cfg : config) (s s0 : state) (status : Z)
    (file : string) (line : Z) :
  reachable cfg s ->
  __watchdog_initialize cfg s = Ok (tt, s0) ->
  gc_flag cfg <> 0 ->
  exists f s',
    __stream s0 = Some f /\
    _watchdog_exit cfg status file line s = Ok (tt, s') /\
    heap s' = ∅ /\ infos s' = ∅ /\ __info_list s' = None /\
    __allocations_counter s' = __allocations_counter s /\
    __frees_counter s' = __allocations_counter s /\
    __bytes_allocated s' = __bytes_allocated s /\
    __bytes_freed s' = __bytes_allocated s /\
    __bytes_collected s' = wrap cfg (__bytes_collected s + live_bytes s) /\
    (report_flag cfg <> 0 ->
     (f, msg_report_counts (__allocations_counter s) (__allocations_counter s))
       ∈ output s' /\
     (f, msg_report_bytes (__bytes_allocated s) (__bytes_allocated s)
           (wrap cfg (__bytes_collected s + live_bytes s))) ∈ output s').
Proof.
  intros Hs Hinit Hgc.
  destruct (_watchdog_exit_prelude cfg s s0 status file line Hs Hinit)
    as (s1 & Heq & Hc1 & Hn1 & Hi1 & Hst & Hsame).
  destruct (exit_collects cfg status s1 Hc1 Hn1 Hi1 Hgc) as (f & s' & Hf & Hrun & Hrest).
  destruct (same_bookkeeping_live _ _ Hsame) as [Hlive _].
  destruct Hsame as (_ & _ & _ & _ & Hac & _ & Hba & _ & Hbc).
  exists f, s'. split; [by rewrite <- Hst|]. split; [by rewrite Heq|].
  rewrite <- Hac, <- Hba, <- Hbc, <- Hlive. exact Hrest.
Qed.

Lemma exit_with_collection_witness :
  reachable cfg64 demo_leak /\
  __watchdog_initialize cfg64 demo_leak = Ok (tt, demo_leak) /\
  gc_flag cfg64 <> 0 /\
  exists s',
    _watchdog_exit cfg64 0 "fileB" 9 demo_leak = Ok (tt, s') /\
    heap s' = ∅ /\ infos s' = ∅ /\
    __frees_counter s' = 2 /\ __bytes_freed s' = 400 /\ __bytes_collected s' = 50 /\
    (stdout, msg_report_counts 2 2) ∈ output s' /\
    (stdout, msg_report_bytes 400 400 50) ∈ output s'.
Proof.
  split; [exact demo_leak_reachable|]. split; [reflexivity|]. split; [discriminate|].
  destruct (exit_with_collection cfg64 demo_leak demo_leak 0 "fileB" 9
              demo_leak_reachable eq_refl)
    as (f & s' & Hf & Hrun & Hh & Hm & _ & _ & Hfc & _ & Hbf & Hbc & Hout);
    [discriminate|].
  injection Hf as <-.
  destruct Hout as [Hcounts Hbytes]; [discriminate|].
  exists s'. repeat split; assumption.
Defined.

(** With collection disabled the collector does nothing. *)
Lemma __watchdog_collect_disabled (cfg : config) (s : state) :
  __initialized s = true -> gc_flag cfg = 0 ->
  __watchdog_collect cfg s = Ok (tt, s).
Proof.
  intros Hi Hgc. unfold __watchdog_collect, bind, gets, assert.
  by rewrite Hi, Hgc.
Qed.

(** X10: with collection disabled, [_watchdog_exit] still runs its hooks to
    the end and releases the records and the registry, but the raw blocks of
    the chunks the client had not released stay as they are, and no counter
    moves: such chunks are not given back and not counted as freed. *)
Theorem exit_without_collection (cfg : config) (s s0 : state) (status : Z)
    (file : string) (line : Z) :
  reachable cfg s ->
  __watchdog_initialize cfg s = Ok (tt, s0) ->
  gc_flag cfg = 0 ->
  exists s',
    _watchdog_exit cfg status file line s = Ok (tt, s') /\
    heap s' = heap s /\ infos s' = ∅ /\ __info_list s' = None /\
    __allocations_counter s' = __allocations_counter s /\
    __frees_counter s' = __frees_counter s /\
    __bytes_allocated s' = __bytes_allocated s /\
    __bytes_freed s' = __bytes_freed s /\
    __bytes_collected s' = __bytes_collected s.
Proof.
  intros Hs Hinit Hgc.
  destruct (_watchdog_exit_prelude cfg s s0 status file line Hs Hinit)
    as (s1 & Heq & Hc1 & _ & Hi1 & _ & Hsame).
  pose proof (cons_init _ _ Hc1) as Htable. rewrite Hi1 in Htable.
  destruct Htable as (_ & _ & Htable).
  destruct (report_terminate_runs cfg s1 (consistent_registered cfg s1 Hc1 Hi1))
    as (f & s' & _ & Hrun & Hm & Hl & Hh & _ & Hac & Hfc & Hba & Hbf & Hbc).
  destruct Hsame as (_ & _ & Hh1 & _ & Hac1 & Hfc1 & Hba1 & Hbf1 & Hbc1).
  exists s'. split.
  { rewrite Heq, exit_eq by done. unfold bind at 1.
    by rewrite (__watchdog_collect_disabled cfg s1 Hi1 Hgc). }
  rewrite Hh, Hac, Hfc, Hba, Hbf, Hbc. by repeat split.
Qed.

Lemma exit_without_collection_witness :
  reachable (mk_config 64 8 "<stdout>" 1 0 1 true) demo_leak /\
  __watchdog_initialize (mk_config 64 8 "<stdout>" 1 0 1 true) demo_leak
    = Ok (tt, demo_leak) /\
  gc_flag (mk_config 64 8 "<stdout>" 1 0 1 true) = 0 /\
  exists s',
    _watchdog_exit (mk_config 64 8 "<stdout>" 1 0 1 true) 0 "fileB" 9 demo_leak
      = Ok (tt, s') /\
    heap s' = heap demo_leak /\ infos s' = ∅ /\
    __frees_counter s' = 1 /\ __bytes_freed s' = 350 /\ __bytes_collected s' = 0.
Proof.
  assert (Hreach : reachable (mk_config 64 8 "<stdout>" 1 0 1 true) demo_leak).
  { apply (run_reachable _ demo_calls_leak initial_state).
    - apply reachable_initial.
    - vm_compute. intuition.
    - vm_compute. reflexivity. }
  split; [exact Hreach|]. split; [reflexivity|]. split; [reflexivity|].
  destruct (exit_without_collection (mk_config 64 8 "<stdout>" 1 0 1 true)
              demo_leak demo_leak 0 "fileB" 9 Hreach eq_refl eq_refl)
    as (s' & Hrun & Hh & Hm & _ & _ & Hfc & _ & Hbf & Hbc).
  exists s'. repeat split; assumption.
Defined.

(** ** What is printed for a call *)

(** X11: an allocation prints for itself only in verbose mode, and then two
    lines: when the system allocator has no memory, an error line with the
    call site and the size that could not be allocated; otherwise an info
    line with the call site and the size and pointer handed out.  For a
    zero-allocation the size printed is the wrapped product. *)
Theorem allocation_is_logged (cfg : config) (s s0 : state) (f : FILE)
    (num size : Z) (file : string) (line : Z) (raw : pointer) :
  reachable cfg s ->
  __watchdog_initialize cfg s = Ok (tt, s0) ->
  __stream s0 = Some f ->
  0 <= chunk_header_bytes cfg ->
  raw = NULL \/ 0 < raw ->
  (exists data s',
     _watchdog_malloc cfg size file line raw s = Ok (data, s') /\
     output s' = output s0 ++ map (pair f)
       (if verbose_flag cfg =? 0 then []
        else if raw =? NULL
             then [msg_error CALL_MALLOC file line; msg_alloc_failed size]
             else [msg_info CALL_MALLOC file line;
                   msg_allocated size (raw + chunk_header_bytes cfg)])) /\
  (exists data s',
     _watchdog_calloc cfg num size file line raw s = Ok (data, s') /\
     output s' = output s0 ++ map (pair f)
       (if verbose_flag cfg =? 0 then []
        else if raw =? NULL
             then [msg_error CALL_CALLOC file line;
                   msg_alloc_failed (wrap cfg (num * size))]
             else [msg_info CALL_CALLOC file line;
                   msg_allocated (wrap cfg (num * size))
                     (raw + chunk_header_bytes cfg)])).
Proof.
  intros Hs Hinit Hf Hhdr Hraw.
  pose proof (reachable_consistent _ _ Hs) as Hc.
  destruct (__watchdog_initialize_bookkeeping _ _ _ Hc Hinit)
    as (_ & _ & Hi0 & l & f' & Hl & Hf').
  assert (Hdata : forall sz clear call, call = CALL_MALLOC \/ call = CALL_CALLOC ->
    exists data s',
      (let* data := __watchdog_allocate cfg sz clear file line raw in
       __watchdog_log_call cfg call file line [sz; data] ;; ret data) s0
        = Ok (data, s') /\
      output s' = output s0 ++ map (pair f)
        (if verbose_flag cfg =? 0 then []
         else if raw =? NULL
              then [msg_error call file line; msg_alloc_failed sz]
              else [msg_info call file line;
                    msg_allocated sz (raw + chunk_header_bytes cfg)])).
  { intros sz clear call Hcall. unfold bind.
    rewrite __watchdog_allocate_eq, Hl.
    destruct (raw =? NULL) eqn:Hnull.
    - rewrite __watchdog_log_call_eq, Hi0, Hf.
      destruct (verbose_flag cfg =? 0).
      + eexists _, _. split; [by destruct Hcall as [-> | ->]|]. simpl.
        by rewrite app_nil_r.
      + destruct Hcall as [-> | ->]; eexists _, _; (split; [reflexivity|]); done.
    - assert (Hnn : (raw + chunk_header_bytes cfg =? NULL) = false).
      { apply Z.eqb_neq in Hnull. apply Z.eqb_neq. unfold NULL in *.
        destruct Hraw; lia. }
      rewrite __watchdog_log_call_eq. simpl. rewrite Hi0, Hf.
      destruct (verbose_flag cfg =? 0).
      + eexists _, _. split; [by destruct Hcall as [-> | ->]|]. simpl.
        by rewrite app_nil_r.
      + destruct Hcall as [-> | ->]; simpl; rewrite Hnn;
          eexists _, _; (split; [reflexivity|]); done. }
  split.
  - destruct (Hdata size false CALL_MALLOC) as (data & s' & Hrun & Hout); [by left|].
    exists data, s'. split; [|done].
    unfold _watchdog_malloc. unfold bind at 1. by rewrite Hinit.
  - destruct (Hdata (wrap cfg (num * size)) true CALL_CALLOC)
      as (data & s' & Hrun & Hout); [by right|].
    exists data, s'. split; [|done].
    unfold _watchdog_calloc. unfold bind at 1. by rewrite Hinit.
Qed.

Lemma allocation_is_logged_witness :
  reachable cfg64 demo_allocated /\
  __watchdog_initialize cfg64 demo_allocated = Ok (tt, demo_allocated) /\
  __stream demo_allocated = Some stdout /\
  0 <= chunk_header_bytes cfg64 /\
  (NULL = NULL \/ 0 < NULL) /\
  exists data s',
    _watchdog_malloc cfg64 64 "fileC" 5 NULL demo_allocated = Ok (data, s') /\
    output s' = output demo_allocated ++
                [(stdout, msg_error CALL_MALLOC "fileC" 5); (stdout, msg_alloc_failed 64)].
Proof.
  split; [exact demo_allocated_reachable|]. split; [reflexivity|].
  split; [reflexivity|]. split; [discriminate|]. split; [by left|].
  exact (proj1 (allocation_is_logged cfg64 demo_allocated demo_allocated stdout 1 64
                  "fileC" 5 NULL demo_allocated_reachable eq_refl eq_refl
                  ltac:(discriminate) (or_introl eq_refl))).
Defined.

(** X12: the names the calls are printed under tell the calls apart, and
    none is longer than the seven columns the log lines reserve for it. *)
Theorem call_names_distinct (c1 c2 : call_t) :
  (__watchdog_call_to_string c1 = __watchdog_call_to_string c2 <-> c1 = c2) /\
  (String.length (__watchdog_call_to_string c1) <= 7)%nat.
Proof.
  split; [split|].
  - by destruct c1, c2.
  - by intros ->.
  - destruct c1; simpl; lia.
Qed.

(** ** Alligator.c *)

Lemma alligator_malloc_eq size file line err raw (s : state) :
  Alligator.alligator_malloc_ size file line err raw s =
    if raw =? NULL then Fault Aborted
    else Ok (raw, set_heap (<[raw := mk_block size None]> (heap s)) s).
Proof.
  unfold Alligator.alligator_malloc_, Alligator.__ensure, malloc, abort.
  unfold bind, modify, ret, fail.
  destruct (raw =? NULL) eqn:Hraw; simpl; [done|]. by rewrite Hraw.
Qed.

Lemma alligator_calloc_eq cfg nmemb size file line err raw (s : state) :
  Alligator.alligator_calloc_ cfg nmemb size file line err raw s =
    if wrap cfg (nmemb * size) =? nmemb * size then
      if raw =? NULL then Fault Aborted
      else Ok (raw, set_heap (<[raw := mk_block (nmemb * size) None]> (heap s)) s)
    else Fault Aborted.
Proof.
  unfold Alligator.alligator_calloc_, Alligator.libc_calloc, Alligator.__ensure,
    malloc, abort.
  unfold bind, modify, ret, fail.
  destruct (wrap cfg (nmemb * size) =? nmemb * size); simpl; [|done].
  destruct (raw =? NULL) eqn:Hraw; simpl; [done|]. by rewrite Hraw.
Qed.

Lemma alligator_realloc_eq ptr size file line err raw (s : state) :
  Alligator.alligator_realloc_ ptr size file line err raw s =
    if ptr =? NULL then
      if raw =? NULL then Fault Aborted
      else Ok (raw, set_heap (<[raw := mk_block size None]> (heap s)) s)
    else
      match heap s !! ptr with
      | None => Fault InvalidAccess
      | Some b =>
          if raw =? NULL then Fault Aborted
          else Ok (raw, set_heap (<[raw := mk_block size (blk_header b)]>
                                    (delete ptr (heap s))) s)
      end.
Proof.
  unfold Alligator.alligator_realloc_, Alligator.libc_realloc, Alligator.__ensure,
    malloc, realloc, abort.
  unfold bind, gets, modify, ret, fail.
  destruct (ptr =? NULL); simpl.
  - destruct (raw =? NULL) eqn:Hraw; simpl; [done|]. by rewrite Hraw.
  - destruct (heap s !! ptr) as [b|]; [|done].
    destruct (raw =? NULL) eqn:Hraw; simpl; [done|]. by rewrite Hraw.
Qed.

(** X13: the pass-through allocator never hands [NULL] to its caller: each
    of its three allocating functions, when it returns, returns the address
    the system allocator answered with, which is not [NULL]; when the system
    allocator answers [NULL] the process aborts instead. *)
Theorem alligator_never_returns_null (cfg : config) (s : state) (size : Z)
    (file : string) (line : Z) (err : string) (raw : pointer) :
  (forall p s', Alligator.alligator_malloc_ size file line err raw s = Ok (p, s') ->
                p = raw /\ p <> NULL) /\
  (forall nmemb p s',
     Alligator.alligator_calloc_ cfg nmemb size file line err raw s = Ok (p, s') ->
     p = raw /\ p <> NULL) /\
  (forall ptr p s',
     Alligator.alligator_realloc_ ptr size file line err raw s = Ok (p, s') ->
     p = raw /\ p <> NULL) /\
  Alligator.alligator_malloc_ size file line err NULL s = Fault Aborted /\
  (forall nmemb, Alligator.alligator_calloc_ cfg nmemb size file line err NULL s
                 = Fault Aborted) /\
  (forall ptr, ptr = NULL \/ is_Some (heap s !! ptr) ->
     Alligator.alligator_realloc_ ptr size file line err NULL s = Fault Aborted).
Proof.
  split; [|split; [|split; [|split; [|split]]]].
  - intros p s'. rewrite alligator_malloc_eq.
    destruct (raw =? NULL) eqn:Hraw; [done|]. intros [= <- _].
    split; [done|]. by apply Z.eqb_neq.
  - intros nmemb p s'. rewrite alligator_calloc_eq.
    destruct (wrap cfg (nmemb * size) =? nmemb * size); [|done].
    destruct (raw =? NULL) eqn:Hraw; [done|]. intros [= <- _].
    split; [done|]. by apply Z.eqb_neq.
  - intros ptr p s'. rewrite alligator_realloc_eq.
    destruct (ptr =? NULL); [|destruct (heap s !! ptr); [|done]];
      (destruct (raw =? NULL) eqn:Hraw; [done|]); intros [= <- _];
      (split; [done|]); by apply Z.eqb_neq.
  - by rewrite alligator_malloc_eq.
  - intros nmemb. rewrite alligator_calloc_eq. by case_match.
  - intros ptr Hptr. rewrite alligator_realloc_eq.
    destruct (ptr =? NULL) eqn:E; [done|].
    destruct Hptr as [->|[b Hb]]; [done|]. by rewrite Hb.
Qed.

(** X14: the pass-through release ignores [NULL], faults on an address that
    is neither [NULL] nor that of a live block, and gives back what the
    pass-through allocation handed out: an allocation followed by the
    release of its result leaves the state as it was. *)
Theorem alligator_release (s : state) (file : string) (line : Z) :
  Alligator.alligator_free_ NULL file line s = Ok (tt, s) /\
  (forall ptr, ptr <> NULL -> heap s !! ptr = None ->
     Alligator.alligator_free_ ptr file line s = Fault InvalidAccess) /\
  (forall raw size err, raw <> NULL -> heap s !! raw = None ->
     (let* p := Alligator.alligator_malloc_ size file line err raw in
      Alligator.alligator_free_ p file line) s = Ok (tt, s)).
Proof.
  split; [done|]. split.
  - intros ptr Hptr Hnone. apply Z.eqb_neq in Hptr.
    unfold Alligator.alligator_free_, Alligator.libc_free, free.
    rewrite Hptr. unfold bind, gets, fail. by rewrite Hnone.
  - intros raw size err Hraw Hnone. apply Z.eqb_neq in Hraw.
    unfold bind at 1. rewrite alligator_malloc_eq, Hraw.
    unfold Alligator.alligator_free_, Alligator.libc_free, free.
    rewrite Hraw. unfold bind, gets, modify. simpl.
    rewrite lookup_insert_eq, delete_insert_id by done. by destruct s.
Qed.

(** ** Records and raw blocks *)

(** X15: at every point of a run the records marked allocated and the live
    raw blocks are the same thing seen from two sides: a raw block is live
    exactly when a registered record marked allocated has its address one
    header above it, and no two records marked allocated have the same
    address. *)
Theorem live_records_are_live_blocks (cfg : config) (s : state) :
  reachable cfg s ->
  (forall chunk,
     is_Some (heap s !! chunk) <->
     exists p i, p ∈ tracked s /\ infos s !! p = Some i /\ allocated i = true /\
                 address i = chunk + chunk_header_bytes cfg) /\
  (forall p q i j,
     infos s !! p = Some i -> allocated i = true ->
     infos s !! q = Some j -> allocated j = true ->
     address i = address j -> p = q).
Proof.
  intros Hs. pose proof (reachable_consistent _ _ Hs) as Hc. split.
  - intros chunk. split.
    + intros [b Hb].
      destruct (cons_heap _ _ Hc _ _ Hb) as (_ & p & i & _ & Hi & Ha & Haddr).
      exists p, i. repeat split; try done.
      apply (cons_registered _ _ Hc). by rewrite Hi.
    + intros (p & i & _ & Hi & Ha & Haddr).
      destruct (cons_live _ _ Hc _ _ Hi Ha) as [n Hn].
      replace (address i - chunk_header_bytes cfg) with chunk in Hn by lia.
      by rewrite Hn.
  - intros p q i j. apply (live_blocks_apart cfg s p q i j Hc).
Qed.

Lemma live_records_are_live_blocks_witness :
  reachable cfg64 demo_leak /\
  (is_Some (heap demo_leak !! 4096) <->
   exists p i, p ∈ tracked demo_leak /\ infos demo_leak !! p = Some i /\
               allocated i = true /\ address i = 4096 + chunk_header_bytes cfg64).
Proof.
  split; [exact demo_leak_reachable|].
  apply (proj1 (live_records_are_live_blocks cfg64 demo_leak demo_leak_reachable)).
Defined.

(** X16: a resize that moves the chunk leaves the old pointer behind: the
    call returns the new pointer, one header above the address the system
    allocator answered with, and right after it a release or a resize of the
    old pointer reads a header that is no longer there. *)
Theorem resize_moves_pointer (cfg : config) (s s' : state) (ptr data : pointer)
    (size : Z) (file : string) (line : Z) (raw : pointer) :
  _watchdog_realloc cfg ptr size file line raw s = Ok (data, s') ->
  raw <> NULL -> raw <> ptr - chunk_header_bytes cfg ->
  data = raw + chunk_header_bytes cfg /\
  (forall file' line', _watchdog_free cfg ptr file' line' s' = Fault InvalidAccess) /\
  (forall size' file' line' raw',
     _watchdog_realloc cfg ptr size' file' line' raw' s' = Fault InvalidAccess).
Proof.
  unfold _watchdog_realloc at 1. unfold bind.
  destruct (__watchdog_initialize cfg s) as [[[] s0]|] eqn:Einit; [|done].
  destruct (__watchdog_reallocate cfg ptr size file line raw s0) as [[r s1]|] eqn:Eop;
    [|done].
  destruct (__watchdog_log_call cfg CALL_REALLOC file line [size; ptr; r] s1)
    as [[[] s2]|] eqn:Hlog; [|done].
  intros [= <- <-] Hraw Hmoved.
  destruct (__watchdog_log_call_frame _ _ _ _ _ _ _ Hlog)
    as (_ & Hheap & _ & _ & _ & Hi' & _).
  apply Z.eqb_neq in Hraw.
  rewrite __watchdog_reallocate_eq, Hraw in Eop.
  assert (Hres : r = raw + chunk_header_bytes cfg /\
                 heap s2 !! (ptr - chunk_header_bytes cfg) = None).
  { rewrite Hheap. repeat case_match; try done. injection Eop as <- <-.
    split; [done|]. simpl.
    rewrite lookup_insert_ne by done. apply lookup_delete_eq. }
  destruct Hres as [-> Hgone]. split; [done|]. split.
  - intros file' line'. unfold _watchdog_free, bind.
    rewrite __watchdog_initialize_eq, Hi', __watchdog_free_eq. by rewrite Hgone.
  - intros size' file' line' raw'. unfold _watchdog_realloc, bind.
    rewrite __watchdog_initialize_eq, Hi', __watchdog_reallocate_eq. by rewrite Hgone.
Qed.

Lemma resize_moves_pointer_witness :
  exists s',
    _watchdog_realloc cfg64 4104 250 "fileA" 20 8192 demo_allocated = Ok (8200, s') /\
    8192 <> NULL /\ 8192 <> 4104 - chunk_header_bytes cfg64 /\
    _watchdog_free cfg64 4104 "fileA" 30 s' = Fault InvalidAccess.
Proof.
  eexists. split; [vm_compute; reflexivity|].
  split; [discriminate|]. split; [discriminate|].
  match goal with
  | |- _watchdog_free _ _ _ _ ?s' = _ =>
      destruct (resize_moves_pointer cfg64 demo_allocated s' 4104 8200 250 "fileA" 20 8192)
        as (_ & Hfree & _); [vm_compute; reflexivity|discriminate|discriminate|]
  end.
  apply Hfree.
Defined.
